(** * cfd-cli: the heightfield wave simulator of [cfd.c]

    A shallow embedding of [cfd.c] and the proofs of its specification.

    - C [float] is IEEE-754 binary32.  It is modelled bit-exactly with the
      Standard Library's executable [SpecFloat] at precision 24 and maximal
      exponent 128, rounding to nearest even, each C operation rounded once
      (no excess precision and no fused multiply-add).
    - The five global [float **] / [int **] grids are lists of rows, read and
      written by index; [WIDTH] and [HEIGHT] are C [int]s, kept as [Z].
    - [for] loops are folds over the index range, in the order of the code.
    - [main] is modelled up to the point where the endless loop starts; the
      loop itself is the iteration of [simulation_step]. *)

From Stdlib Require Import ZArith Lia Bool String Ascii.
From Stdlib Require Import Floats.SpecFloat.
From stdpp Require Import base list.

Local Open Scope Z_scope.

(* ===================================================================== *)
(** * Binary32 arithmetic *)
(* ===================================================================== *)

Module F32.

Definition prec : Z := 24.
Definition emax : Z := 128.

(** The values of a C [float]. *)
Definition float : Type := spec_float.

Definition add : float -> float -> float := SFadd prec emax.
Definition sub : float -> float -> float := SFsub prec emax.
Definition mul : float -> float -> float := SFmul prec emax.
Definition div : float -> float -> float := SFdiv prec emax.

(** C comparisons; every comparison with a NaN is false. *)
Definition ltb (x y : float) : bool := SFltb x y.
Definition leb (x y : float) : bool := SFleb x y.
Definition gtb (x y : float) : bool := SFltb y x.
Definition eqb (x y : float) : bool := SFeqb x y.

(** [(float)z] for a C [int] [z]. *)
Definition of_int (z : Z) : float := binary_normalize prec emax z 0 false.

(** A decimal literal [n/d] with the suffix [f]: the binary32 number
    nearest to the quotient ([n] and [d] are small integers, exact in
    binary32, and the division rounds once). *)
Definition lit (n d : Z) : float := div (of_int n) (of_int d).

Definition zero : float := S754_zero false.
Definition one : float := of_int 1.

(** [fmaxf], [fminf] and [fabsf] of <math.h>: a NaN argument is treated
    as missing data. *)
Definition fmaxf (x y : float) : float :=
  match x, y with
  | S754_nan, _ => y
  | _, S754_nan => x
  | _, _ => if ltb x y then y else x
  end.

Definition fminf (x y : float) : float :=
  match x, y with
  | S754_nan, _ => y
  | _, S754_nan => x
  | _, _ => if ltb y x then y else x
  end.

Definition fabsf (x : float) : float := SFabs x.

(** A float is a binary32 datum when its mantissa and exponent are
    canonical; a zero of either sign. *)
Definition valid (x : float) : bool := valid_binary prec emax x.

Definition is_zero (x : float) : bool :=
  match x with S754_zero _ => true | _ => false end.

Definition is_finite (x : float) : bool :=
  match x with S754_zero _ | S754_finite _ _ _ => true | _ => false end.

End F32.

Import F32.

#[global] Arguments add : simpl never.
#[global] Arguments sub : simpl never.
#[global] Arguments mul : simpl never.
#[global] Arguments div : simpl never.
#[global] Arguments of_int : simpl never.
#[global] Arguments lit : simpl never.
#[global] Arguments one : simpl never.
#[global] Arguments fmaxf : simpl never.
#[global] Arguments fminf : simpl never.
#[global] Arguments fabsf : simpl never.
#[global] Arguments ltb : simpl never.
#[global] Arguments leb : simpl never.
#[global] Arguments gtb : simpl never.
#[global] Arguments eqb : simpl never.

#[global] Instance float_inhabited : Inhabited float := populate zero.

(* ===================================================================== *)
(** * Grids *)
(* ===================================================================== *)

(** [a[r][c]] and [a[r][c] = v] on a list of rows.  The code never indexes
    out of range (every access is inside the loops or behind a bound test);
    the model reads the default and writes nothing there. *)
Definition get2 {A} `{Inhabited A} (a : list (list A)) (r c : Z) : A :=
  (a !!! Z.to_nat r) !!! Z.to_nat c.

Definition set2 {A} (a : list (list A)) (r c : Z) (v : A) : list (list A) :=
  alter (fun row => <[Z.to_nat c := v]> row) (Z.to_nat r) a.

(** [for (int i = 0; i < n; i++) body]. *)
Definition for_range {S} (n : Z) (body : Z -> S -> S) (s : S) : S :=
  foldl (fun s i => body i s) s (seqZ 0 n).

(** The global simulation parameters. *)
Record Params : Type := mkParams {
  G_DT : float;
  G_WAVE_SPEED_SQ : float;
  G_DAMPING : float;
  G_INITIAL_WATER_LEVEL : float;
  G_INITIAL_TILT : float;
  G_SLEEP_MS : Z
}.

(** The defaults of the globals. *)
Definition default_params : Params :=
  mkParams (lit 2 10) (lit 5 10) (lit 1 100) (lit 5 10) (lit 1 10) 50.

(** The global grid data: dimensions and the five arrays.  [h], [vel],
    [next_h] and [next_vel] are pointers in C; the swap at the end of a step
    exchanges the fields. *)
Record Grid : Type := mkGrid {
  WIDTH : Z;
  HEIGHT : Z;
  h : list (list float);
  vel : list (list float);
  next_h : list (list float);
  next_vel : list (list float);
  obstacle : list (list Z)
}.

Definition with_h (g : Grid) (x : list (list float)) : Grid :=
  mkGrid (WIDTH g) (HEIGHT g) x (vel g) (next_h g) (next_vel g) (obstacle g).
Definition with_vel (g : Grid) (x : list (list float)) : Grid :=
  mkGrid (WIDTH g) (HEIGHT g) (h g) x (next_h g) (next_vel g) (obstacle g).
Definition with_next_h (g : Grid) (x : list (list float)) : Grid :=
  mkGrid (WIDTH g) (HEIGHT g) (h g) (vel g) x (next_vel g) (obstacle g).
Definition with_next_vel (g : Grid) (x : list (list float)) : Grid :=
  mkGrid (WIDTH g) (HEIGHT g) (h g) (vel g) (next_h g) x (obstacle g).
Definition with_obstacle (g : Grid) (x : list (list Z)) : Grid :=
  mkGrid (WIDTH g) (HEIGHT g) (h g) (vel g) (next_h g) (next_vel g) x.

(** [allocate_grids]: [HEIGHT] rows of [WIDTH] cells, zeroed by [calloc].
    (A failed allocation ends the process; it is not modelled.) *)
Definition allocate_grids (W H : Z) : Grid :=
  let rows {A} (x : A) := replicate (Z.to_nat H) (replicate (Z.to_nat W) x) in
  mkGrid W H (rows zero) (rows zero) (rows zero) (rows zero) (rows 0).

(* ===================================================================== *)
(** * Initialisation *)
(* ===================================================================== *)

(** [tilt_effect] at column [c]:
    [G_INITIAL_TILT * (((float)c / (WIDTH - 1.0f)) - 0.5f) * 2.0f]. *)
Definition tilt_effect (p : Params) (W c : Z) : float :=
  mul (mul (G_INITIAL_TILT p)
           (sub (div (of_int c) (sub (of_int W) one)) (lit 5 10)))
      (of_int 2).

(** The body of the double loop of [initialize_simulation] at [(r, c)]. *)
Definition init_cell (p : Params) (r c : Z) (g : Grid) : Grid :=
  if (r =? 0) || (r =? HEIGHT g - 1) || (c =? 0) || (c =? WIDTH g - 1) then
    let g := with_obstacle g (set2 (obstacle g) r c 1) in
    let g := with_h g (set2 (h g) r c zero) in
    with_vel g (set2 (vel g) r c zero)
  else
    let g := with_obstacle g (set2 (obstacle g) r c 0) in
    let g := with_h g (set2 (h g) r c
                            (add (G_INITIAL_WATER_LEVEL p) (tilt_effect p (WIDTH g) c))) in
    let g := with_h g (set2 (h g) r c (fmaxf zero (get2 (h g) r c))) in
    let g := with_h g (set2 (h g) r c (fminf one (get2 (h g) r c))) in
    with_vel g (set2 (vel g) r c zero).

(** The central disturbance applied when there is no tilt. *)
Definition disturb (p : Params) (g : Grid) : Grid :=
  if ltb (fabsf (G_INITIAL_TILT p)) (lit 1 1000) && (HEIGHT g >? 2) && (WIDTH g >? 2) then
    let disturb_r := HEIGHT g ÷ 2 in
    let disturb_c := WIDTH g ÷ 2 in
    if get2 (obstacle g) disturb_r disturb_c =? 0 then
      with_h g (set2 (h g) disturb_r disturb_c
                     (fminf one (add (G_INITIAL_WATER_LEVEL p) (lit 4 10))))
    else g
  else g.

Definition init_loops (p : Params) (g : Grid) : Grid :=
  for_range (HEIGHT g) (fun r => for_range (WIDTH g) (fun c => init_cell p r c)) g.

Definition initialize_simulation (p : Params) (g : Grid) : Grid :=
  disturb p (init_loops p g).

(* ===================================================================== *)
(** * One step of the integrator *)
(* ===================================================================== *)

(** The four neighbour heights of [(r, c)]: the neighbour's height when it
    exists and is water, the centre's own height otherwise. *)
Definition h_up (g : Grid) (r c : Z) : float :=
  if (r >? 0) && (get2 (obstacle g) (r - 1) c =? 0)
  then get2 (h g) (r - 1) c else get2 (h g) r c.
Definition h_down (g : Grid) (r c : Z) : float :=
  if (r <? HEIGHT g - 1) && (get2 (obstacle g) (r + 1) c =? 0)
  then get2 (h g) (r + 1) c else get2 (h g) r c.
Definition h_left (g : Grid) (r c : Z) : float :=
  if (c >? 0) && (get2 (obstacle g) r (c - 1) =? 0)
  then get2 (h g) r (c - 1) else get2 (h g) r c.
Definition h_right (g : Grid) (r c : Z) : float :=
  if (c <? WIDTH g - 1) && (get2 (obstacle g) r (c + 1) =? 0)
  then get2 (h g) r (c + 1) else get2 (h g) r c.

Definition laplacian_h (g : Grid) (r c : Z) : float :=
  sub (add (add (add (h_up g r c) (h_down g r c)) (h_left g r c)) (h_right g r c))
      (mul (of_int 4) (get2 (h g) r c)).

(** [current_vel] after the force and the damping. *)
Definition new_vel (p : Params) (g : Grid) (r c : Z) : float :=
  let current_vel := get2 (vel g) r c in
  let current_vel :=
    add current_vel (mul (mul (G_WAVE_SPEED_SQ p) (laplacian_h g r c)) (G_DT p)) in
  mul current_vel (sub one (mul (G_DAMPING p) (G_DT p))).

(** [current_h] after the update and the two clamps. *)
Definition new_h (p : Params) (g : Grid) (r c : Z) : float :=
  let current_h := get2 (h g) r c in
  let current_h := add current_h (mul (new_vel p g r c) (G_DT p)) in
  let current_h := fmaxf zero current_h in
  fminf one current_h.

(** The body of the double loop of [simulation_step] at [(r, c)]. *)
Definition step_cell (p : Params) (r c : Z) (g : Grid) : Grid :=
  if negb (get2 (obstacle g) r c =? 0) then
    let g := with_next_h g (set2 (next_h g) r c zero) in
    with_next_vel g (set2 (next_vel g) r c zero)
  else
    let g := with_next_vel g (set2 (next_vel g) r c (new_vel p g r c)) in
    with_next_h g (set2 (next_h g) r c (new_h p g r c)).

Definition step_loops (p : Params) (g : Grid) : Grid :=
  for_range (HEIGHT g) (fun r => for_range (WIDTH g) (fun c => step_cell p r c)) g.

(** The exchange of the current and next buffers. *)
Definition swap_buffers (g : Grid) : Grid :=
  mkGrid (WIDTH g) (HEIGHT g) (next_h g) (next_vel g) (h g) (vel g) (obstacle g).

Definition simulation_step (p : Params) (g : Grid) : Grid :=
  swap_buffers (step_loops p g).

(** [n] rounds of the main loop (the display does not touch the grid). *)
Fixpoint run (p : Params) (n : nat) (g : Grid) : Grid :=
  match n with
  | O => g
  | S n' => run p n' (simulation_step p g)
  end.

(* ===================================================================== *)
(** * Rendering *)
(* ===================================================================== *)

Definition height_to_char (current_h : float) : ascii :=
  if gtb current_h (lit 80 100) then "@"%char
  else if gtb current_h (lit 65 100) then "#"%char
  else if gtb current_h (lit 50 100) then "*"%char
  else if gtb current_h (lit 35 100) then "="%char
  else if gtb current_h (lit 20 100) then "-"%char
  else if gtb current_h (lit 5 100) then "."%char
  else " "%char.

(** One row of the frame and the whole frame of [display_grid], without the
    line ends. *)
Definition display_row (g : Grid) (r : Z) : list ascii :=
  (fun c => if negb (get2 (obstacle g) r c =? 0) then "X"%char
            else height_to_char (get2 (h g) r c)) <$> seqZ 0 (WIDTH g).

Definition display_grid (g : Grid) : list (list ascii) :=
  display_row g <$> seqZ 0 (HEIGHT g).

(* ===================================================================== *)
(** * The command line and the start-up of [main] *)
(* ===================================================================== *)

(** What the process writes, in program order.  Formatted numbers are kept
    as data; the text of the diagnostics is the one of the source, without
    the line end. *)
Inductive output : Type :=
  | Usage                                   (* print_usage(argv[0]) *)
  | UnknownOption (opt : string)            (* "Unknown option: %s" *)
  | Error (msg : string)                    (* a validation diagnostic *)
  | StabilityWarning (metric : float)       (* the three warning lines *)
  | TerminalTooSmall                        (* "Terminal too small. ..." *)
  | Banner (W H : Z) (p : Params)           (* "Terminal: ..." and "Parameters: ..." *)
  | InstabilityBanner.                      (* "WARNING: POTENTIAL INSTABILITY ..." *)

(** The two conversions of <stdlib.h> the parser relies on; [atof] stands
    for the call followed by the conversion of its [double] to [float]. *)
Class Libc : Type := {
  atof : string -> float;
  atoi : string -> Z
}.

Definition set_dt (p : Params) (x : float) : Params :=
  mkParams x (G_WAVE_SPEED_SQ p) (G_DAMPING p) (G_INITIAL_WATER_LEVEL p)
           (G_INITIAL_TILT p) (G_SLEEP_MS p).
Definition set_speed_sq (p : Params) (x : float) : Params :=
  mkParams (G_DT p) x (G_DAMPING p) (G_INITIAL_WATER_LEVEL p)
           (G_INITIAL_TILT p) (G_SLEEP_MS p).
Definition set_damping (p : Params) (x : float) : Params :=
  mkParams (G_DT p) (G_WAVE_SPEED_SQ p) x (G_INITIAL_WATER_LEVEL p)
           (G_INITIAL_TILT p) (G_SLEEP_MS p).
Definition set_level (p : Params) (x : float) : Params :=
  mkParams (G_DT p) (G_WAVE_SPEED_SQ p) (G_DAMPING p) x
           (G_INITIAL_TILT p) (G_SLEEP_MS p).
Definition set_tilt (p : Params) (x : float) : Params :=
  mkParams (G_DT p) (G_WAVE_SPEED_SQ p) (G_DAMPING p) (G_INITIAL_WATER_LEVEL p)
           x (G_SLEEP_MS p).
Definition set_sleep (p : Params) (x : Z) : Params :=
  mkParams (G_DT p) (G_WAVE_SPEED_SQ p) (G_DAMPING p) (G_INITIAL_WATER_LEVEL p)
           (G_INITIAL_TILT p) x.

(** The result of the argument loop: the parameters, or a [return]. *)
Inductive parsed : Type :=
  | Parsed (p : Params)
  | Return (code : Z) (out : list output).

(** The argument loop of [main] over [argv[k..]]: an option that takes a
    value consumes the next argument ([++k]). *)
Fixpoint parse_args `{Libc} (args : list string) (p : Params) : parsed :=
  match args with
  | [] => Parsed p
  | a :: rest =>
    if String.eqb a "--dt" then
      match rest with
      | v :: rest' => parse_args rest' (set_dt p (atof v))
      | [] => Return 1 [Usage]
      end
    else if String.eqb a "--speed_sq" then
      match rest with
      | v :: rest' => parse_args rest' (set_speed_sq p (atof v))
      | [] => Return 1 [Usage]
      end
    else if String.eqb a "--damping" then
      match rest with
      | v :: rest' => parse_args rest' (set_damping p (atof v))
      | [] => Return 1 [Usage]
      end
    else if String.eqb a "--level" then
      match rest with
      | v :: rest' => parse_args rest' (set_level p (atof v))
      | [] => Return 1 [Usage]
      end
    else if String.eqb a "--tilt" then
      match rest with
      | v :: rest' => parse_args rest' (set_tilt p (atof v))
      | [] => Return 1 [Usage]
      end
    else if String.eqb a "--sleep" then
      match rest with
      | v :: rest' => parse_args rest' (set_sleep p (atoi v))
      | [] => Return 1 [Usage]
      end
    else if String.eqb a "-h" || String.eqb a "--help" then
      Return 0 [Usage]
    else
      Return 1 [UnknownOption a; Usage]
  end.

(** The validation of the parsed parameters: the diagnostic of the first
    test that fails. *)
Definition validate (p : Params) : option string :=
  if leb (G_DT p) (of_int 0) then Some "Error: dt must be > 0."%string
  else if leb (G_WAVE_SPEED_SQ p) (of_int 0) then Some "Error: speed_sq must be > 0."%string
  else if ltb (G_DAMPING p) zero then Some "Error: damping must be >= 0.0."%string
  else if ltb (G_INITIAL_WATER_LEVEL p) zero || gtb (G_INITIAL_WATER_LEVEL p) one
    then Some "Error: level must be 0.0-1.0."%string
  else if ltb (G_INITIAL_TILT p) zero || gtb (G_INITIAL_TILT p) one
    then Some "Error: tilt must be 0.0-1.0."%string
  else if G_SLEEP_MS p <? 0 then Some "Error: sleep ms must be >= 0."%string
  else None.

Definition stability_metric (p : Params) : float :=
  mul (mul (G_WAVE_SPEED_SQ p) (G_DT p)) (G_DT p).

Definition unstable (p : Params) : bool := gtb (stability_metric p) (lit 5 10).

(** [get_terminal_size] (the POSIX variant): [ws] is what [ioctl] reports,
    [None] when it fails, else [(ws_col, ws_row)]. *)
Definition get_terminal_size (ws : option (Z * Z)) : Z * Z :=
  let '(width, height) :=
    match ws with
    | None => (80, 24)
    | Some (ws_col, ws_row) =>
      if (ws_col =? 0) || (ws_row =? 0) then (80, 24) else (ws_col, ws_row - 1)
    end in
  let width := if width <=? 0 then 80 else width in
  let height := if height <=? 0 then 24 else height in
  (width, height).

(** The minimum-size test of [main] on the detected [WIDTH] and [HEIGHT]. *)
Definition usable_size (W H : Z) : Z * Z :=
  if (W <? 10) || (H <? 5) then
    ((if W <? 10 then 20 else W), (if H <? 5 then 10 else H))
  else (W, H).

(** How [main] goes on: it returns an exit status, or it reaches the endless
    loop with the grid initialised. *)
Inductive outcome : Type :=
  | Exit (code : Z) (out : list output)
  | Simulating (p : Params) (g : Grid) (out : list output).

Definition main `{Libc} (argv : list string) (ws : option (Z * Z)) : outcome :=
  match parse_args (tail argv) default_params with
  | Return code out => Exit code out
  | Parsed p =>
    match validate p with
    | Some msg => Exit 1 [Error msg]
    | None =>
      let warning := if unstable p then [StabilityWarning (stability_metric p)] else [] in
      let '(W0, H0) := get_terminal_size ws in
      let small := if (W0 <? 10) || (H0 <? 5) then [TerminalTooSmall] else [] in
      let '(W, H) := usable_size W0 H0 in
      let banner := Banner W H p :: (if unstable p then [InstabilityBanner] else []) in
      Simulating p (initialize_simulation p (allocate_grids W H))
                 (warning ++ small ++ banner)
    end
  end.

(** The exit status [main] returns, if it returns. *)
Definition exit_status (o : outcome) : option Z :=
  match o with Exit code _ => Some code | Simulating _ _ _ => None end.

Definition printed (o : outcome) : list output :=
  match o with Exit _ out => out | Simulating _ _ out => out end.

(* ===================================================================== *)
(** * The vocabulary of the specification *)
(* ===================================================================== *)

(** An array has the shape of the domain: [H] rows of [W] cells, as
    [allocate_grids] makes them. *)
Definition shaped {A} (W H : Z) (a : list (list A)) : bool :=
  (length a =? Z.to_nat H)%nat
  && forallb (fun row => (length row =? Z.to_nat W)%nat) a.

(** A grid as the program holds it between two steps. *)
Definition allocated (g : Grid) : bool :=
  shaped (WIDTH g) (HEIGHT g) (h g)
  && shaped (WIDTH g) (HEIGHT g) (vel g)
  && shaped (WIDTH g) (HEIGHT g) (next_h g)
  && shaped (WIDTH g) (HEIGHT g) (next_vel g)
  && shaped (WIDTH g) (HEIGHT g) (obstacle g).

Definition in_domain (W H r c : Z) : Prop := 0 <= r < H /\ 0 <= c < W.

Definition border (W H r c : Z) : bool :=
  (r =? 0) || (r =? H - 1) || (c =? 0) || (c =? W - 1).

Definition is_obstacle (g : Grid) (r c : Z) : bool :=
  negb (get2 (obstacle g) r c =? 0).

(** [clamp01 x]: [x] clamped to [[0, 1]], lower bound first. *)
Definition clamp01 (x : float) : float := fminf one (fmaxf zero x).

(** The neighbour height the specification prescribes for the cell
    [(r, c)] and its neighbour [(r', c')]: the neighbour's current height
    when the neighbour exists and is not an obstacle, the centre's own
    current height otherwise. *)
Definition exists_cell (g : Grid) (r c : Z) : bool :=
  (0 <=? r) && (r <? HEIGHT g) && (0 <=? c) && (c <? WIDTH g).

Definition neumann (g : Grid) (r c r' c' : Z) : float :=
  if exists_cell g r' c' && negb (is_obstacle g r' c')
  then get2 (h g) r' c' else get2 (h g) r c.

(** The Laplacian, the velocity and the height of the specification. *)
Definition spec_laplacian (g : Grid) (r c : Z) : float :=
  sub (add (add (add (neumann g r c (r - 1) c) (neumann g r c (r + 1) c))
                (neumann g r c r (c - 1)))
           (neumann g r c r (c + 1)))
      (mul (of_int 4) (get2 (h g) r c)).

Definition spec_vel (p : Params) (g : Grid) (r c : Z) : float :=
  mul (add (get2 (vel g) r c)
           (mul (mul (G_WAVE_SPEED_SQ p) (spec_laplacian g r c)) (G_DT p)))
      (sub one (mul (G_DAMPING p) (G_DT p))).

Definition spec_h (p : Params) (g : Grid) (r c : Z) : float :=
  clamp01 (add (get2 (h g) r c) (mul (spec_vel p g r c) (G_DT p))).

(** What one step leaves in a cell, obstacle or not. *)
Definition cell_h (p : Params) (g : Grid) (r c : Z) : float :=
  if is_obstacle g r c then zero else new_h p g r c.
Definition cell_vel (p : Params) (g : Grid) (r c : Z) : float :=
  if is_obstacle g r c then zero else new_vel p g r c.

(** What the loops of the initialisation leave in a cell. *)
Definition init_h (p : Params) (W H r c : Z) : float :=
  if border W H r c then zero
  else clamp01 (add (G_INITIAL_WATER_LEVEL p) (tilt_effect p W c)).
Definition init_obstacle (W H r c : Z) : Z :=
  if border W H r c then 1 else 0.

(** The central disturbance is applied. *)
Definition disturbed (p : Params) (W H : Z) : bool :=
  ltb (fabsf (G_INITIAL_TILT p)) (lit 1 1000) && (H >? 2) && (W >? 2).

(** Two floats are equal for C's [==]. *)
Definition same (x y : float) : bool := eqb x y.

(** Two grids hold the same current state: dimensions, heights, velocities
    and obstacles; the next buffers are free. *)
Definition same_input (g t : Grid) : Prop :=
  WIDTH t = WIDTH g /\ HEIGHT t = HEIGHT g /\
  h t = h g /\ vel t = vel g /\ obstacle t = obstacle g.

(** What a grid holds once the loops of the initialisation have run. *)
Definition initialised (p : Params) (g0 t : Grid) : Prop :=
  WIDTH t = WIDTH g0 /\ HEIGHT t = HEIGHT g0 /\
  next_h t = next_h g0 /\ next_vel t = next_vel g0 /\
  shaped (WIDTH g0) (HEIGHT g0) (h t) = true /\
  shaped (WIDTH g0) (HEIGHT g0) (vel t) = true /\
  shaped (WIDTH g0) (HEIGHT g0) (obstacle t) = true.

(** The words of the specification about the command line. *)
Definition is_help (a : string) : bool :=
  String.eqb a "-h" || String.eqb a "--help".

Definition takes_value (a : string) : bool :=
  String.eqb a "--dt" || String.eqb a "--speed_sq" || String.eqb a "--damping"
  || String.eqb a "--level" || String.eqb a "--tilt" || String.eqb a "--sleep".

Definition recognised (a : string) : bool := takes_value a || is_help a.

(** A parameter fails the validation: [dt <= 0], [waveSpeedSq <= 0],
    [damping < 0], level or tilt outside [[0, 1]], [sleep < 0]. *)
Definition invalid (p : Params) : bool :=
  leb (G_DT p) zero || leb (G_WAVE_SPEED_SQ p) zero || ltb (G_DAMPING p) zero
  || (ltb (G_INITIAL_WATER_LEVEL p) zero || gtb (G_INITIAL_WATER_LEVEL p) one)
  || (ltb (G_INITIAL_TILT p) zero || gtb (G_INITIAL_TILT p) one)
  || (G_SLEEP_MS p <? 0).

(** The diagnostic [msg] is one of the six of the program and names a
    parameter of [p] that fails. *)
Definition names_failure (p : Params) (msg : string) : Prop :=
  (msg = "Error: dt must be > 0."%string /\ leb (G_DT p) zero = true) \/
  (msg = "Error: speed_sq must be > 0."%string /\ leb (G_WAVE_SPEED_SQ p) zero = true) \/
  (msg = "Error: damping must be >= 0.0."%string /\ ltb (G_DAMPING p) zero = true) \/
  (msg = "Error: level must be 0.0-1.0."%string /\
     (ltb (G_INITIAL_WATER_LEVEL p) zero || gtb (G_INITIAL_WATER_LEVEL p) one) = true) \/
  (msg = "Error: tilt must be 0.0-1.0."%string /\
     (ltb (G_INITIAL_TILT p) zero || gtb (G_INITIAL_TILT p) one) = true) \/
  (msg = "Error: sleep ms must be >= 0."%string /\ G_SLEEP_MS p < 0).

(** The grid [main] hands to the endless loop. *)
Definition initial_grid (p : Params) (ws : option (Z * Z)) : Grid :=
  let '(W0, H0) := get_terminal_size ws in
  let '(W, H') := usable_size W0 H0 in
  initialize_simulation p (allocate_grids W H').

(** Concrete runs used as examples: the tilted start of the defaults
    ([--tilt 0.1 --level 0.5]), the flat start ([--tilt 0 --level 0.5]), and
    a C library that reads every text as zero. *)
Definition tilted_start : Params := default_params.
Definition flat_start : Params := set_tilt default_params zero.

Definition reads_zero : Libc := {| atof := fun _ => zero; atoi := fun _ => 0 |}.

(** [q] is [M / 2] rounded to nearest, ties to even. *)
Definition rne1 (M q : Z) : Prop :=
  M = 2 * q \/ (M = 2 * q + 1 /\ Z.Even q) \/ (M = 2 * q - 1 /\ Z.Even q).

(** [q] is [M / 4] rounded to nearest, ties to even. *)
Definition rne2 (M q : Z) : Prop :=
  M = 4 * q \/ M = 4 * q + 1 \/ M = 4 * q - 1 \/
  (M = 4 * q + 2 /\ Z.Even q) \/ (M = 4 * q - 2 /\ Z.Even q).

(** A flat grid at rest on the level [k]: walls on the border holding
    nothing, water everywhere else holding [k] (for C's [==]), nothing
    moving. *)
Definition flat_cell (k : float) (g : Grid) (r c : Z) : bool :=
  if border (WIDTH g) (HEIGHT g) r c
  then is_obstacle g r c && same (get2 (h g) r c) zero && same (get2 (vel g) r c) zero
  else negb (is_obstacle g r c) && same (get2 (h g) r c) k && same (get2 (vel g) r c) zero.

(** Every cell of the domain is as [flat_cell] says. *)
Definition flat (k : float) (g : Grid) : bool :=
  forallb (fun r => forallb (fun c => flat_cell k g r c) (seqZ 0 (WIDTH g)))
          (seqZ 0 (HEIGHT g)).

(** The wave speed, the time step and the damping factor are finite
    numbers. *)
Definition finite_params (p : Params) : bool :=
  is_finite (G_WAVE_SPEED_SQ p) && is_finite (G_DT p)
  && is_finite (sub one (mul (G_DAMPING p) (G_DT p))).

(** Bit for bit the same float (C's [==] takes [+0.0f] and [-0.0f] for
    equal, and no NaN for equal to itself). *)
Definition identical (x y : float) : bool :=
  match x, y with
  | S754_zero s, S754_zero s' => Bool.eqb s s'
  | S754_infinity s, S754_infinity s' => Bool.eqb s s'
  | S754_nan, S754_nan => true
  | S754_finite s m e, S754_finite s' m' e' => Bool.eqb s s' && (m =? m')%positive && (e =? e')
  | _, _ => false
  end.

(** The sign bit of a float, as [signbit] of [math.h] reads it. *)
Definition signbit (x : float) : bool :=
  match x with
  | S754_zero s | S754_infinity s | S754_finite s _ _ => s
  | S754_nan => false
  end.

(** A flat grid at rest, bit for bit: the heights are [+0.0f] on the border
    and [k] elsewhere, the velocities [+0.0f]. *)
Definition exactly_flat_cell (k : float) (g : Grid) (r c : Z) : bool :=
  identical (get2 (h g) r c) (if border (WIDTH g) (HEIGHT g) r c then zero else k)
  && identical (get2 (vel g) r c) zero.

Definition exactly_flat (k : float) (g : Grid) : bool :=
  forallb (fun r => forallb (fun c => exactly_flat_cell k g r c) (seqZ 0 (WIDTH g)))
          (seqZ 0 (HEIGHT g)).

Definition exact_heights (k : float) (g : Grid) : Prop :=
  forall r c, in_domain (WIDTH g) (HEIGHT g) r c ->
    get2 (h g) r c = if border (WIDTH g) (HEIGHT g) r c then zero else k.

Definition exact_vels (g : Grid) : Prop :=
  forall r c, in_domain (WIDTH g) (HEIGHT g) r c -> get2 (vel g) r c = zero.

(** The grid after the loops of the initialisation and before the central
    disturbance, without tilt: flat on the level [0.5]. *)
Definition calm_grid : Grid := init_loops flat_start (allocate_grids 6 5).

(** Parameters the validation accepts: [--damping inf]; [--damping] at the
    largest finite float with [--dt 2], whose product overflows; and
    [--damping 10], whose damping factor [1 - 10 * 0.2] is negative. *)
Definition endless_damping : Params := set_damping default_params (S754_infinity false).
Definition overflowing_damping : Params :=
  set_dt (set_damping default_params (S754_finite false 16777215 104)) (of_int 2).
Definition strong_damping : Params := set_damping default_params (of_int 10).

(** [display_grid], as the code writes it: the glyph of a cell, a row
    written behind the characters already in the buffer and closed by a
    line feed, and the whole buffer closed by the NUL.  (The branch taken
    when [malloc] fails prints the same characters one by one.) *)
Definition glyph (g : Grid) (r c : Z) : ascii :=
  if negb (get2 (obstacle g) r c =? 0) then "X"%char
  else height_to_char (get2 (h g) r c).

Definition write_row (g : Grid) (r : Z) (buf : list ascii) : list ascii :=
  for_range (WIDTH g) (fun c buf => buf ++ [glyph g r c]) buf ++ ["010"%char].

Definition screen_buffer (g : Grid) : list ascii :=
  for_range (HEIGHT g) (write_row g) [] ++ ["000"%char].

(** C's [int]: 32 bits in two's complement.  [to_int] brings a result back
    into the range; an overflowing signed operation, undefined in C, wraps
    around here as it does on the machines the program runs on. *)
Definition INT_MAX : Z := 2147483647.

Definition to_int (z : Z) : Z := (z + 2147483648) mod 4294967296 - 2147483648.

Definition int_add (a b : Z) : Z := to_int (a + b).

Definition int_mul (a b : Z) : Z := to_int (a * b).

(** [buffer_len], the size [display_grid] allocates:
    [int buffer_len = (WIDTH + 1) * HEIGHT + 1]. *)
Definition buffer_len (g : Grid) : Z :=
  int_add (int_mul (int_add (WIDTH g) 1) (HEIGHT g)) 1.

(** The place of a glyph in the row of glyphs [" .-=*#@"], from the
    shallowest to the deepest. *)
Definition glyph_rank (ch : ascii) : Z :=
  if Ascii.eqb ch "@" then 6 else if Ascii.eqb ch "#" then 5
  else if Ascii.eqb ch "*" then 4 else if Ascii.eqb ch "=" then 3
  else if Ascii.eqb ch "-" then 2 else if Ascii.eqb ch "." then 1 else 0.

(** Two grids agree on the cell [(r, c)], if it is a cell of the domain:
    the same height and the same obstacle flag. *)
Definition agree_at (g1 g2 : Grid) (r c : Z) : Prop :=
  in_domain (WIDTH g1) (HEIGHT g1) r c ->
  get2 (h g1) r c = get2 (h g2) r c /\ get2 (obstacle g1) r c = get2 (obstacle g2) r c.

(** The rows of water are copies of each other: heights and velocities of
    interior cells depend on the column only. *)
Definition rows_alike (g : Grid) : Prop :=
  forall r1 r2 c,
    in_domain (WIDTH g) (HEIGHT g) r1 c -> in_domain (WIDTH g) (HEIGHT g) r2 c ->
    border (WIDTH g) (HEIGHT g) r1 c = false -> border (WIDTH g) (HEIGHT g) r2 c = false ->
    get2 (h g) r1 c = get2 (h g) r2 c /\ get2 (vel g) r1 c = get2 (vel g) r2 c.

(** The options with their values that [parse_args] reads from a command
    line it accepts, in order. *)
Fixpoint option_pairs (args : list string) : list (string * string) :=
  match args with
  | a :: v :: rest => (a, v) :: option_pairs rest
  | _ => []
  end.

(** The value given to the option [opt] at its last occurrence, if it
    occurs. *)
Fixpoint last_value (opt : string) (pairs : list (string * string)) : option string :=
  match pairs with
  | [] => None
  | (a, v) :: rest =>
    match last_value opt rest with
    | Some w => Some w
    | None => if String.eqb a opt then Some v else None
    end
  end.

(** A parameter after the command line: the conversion of the last value
    given for its option, or what it was. *)
Definition given {A} (conv : string -> A) (opt : string) (args : list string) (old : A) : A :=
  match last_value opt (option_pairs args) with
  | Some w => conv w
  | None => old
  end.

(** Example grids: the tilted start after four steps, and the same with the
    far cell [(3, 4)] raised to [1.0]. *)
Definition stirred_grid : Grid :=
  run tilted_start 4 (initialize_simulation tilted_start (allocate_grids 6 5)).
Definition raised_grid : Grid :=
  with_h stirred_grid (set2 (h stirred_grid) 3 4 one).

(* ===================================================================== *)
(** * Arrays and loops *)
(* ===================================================================== *)

Section Arrays.
Context {A : Type} `{Inhabited A}.
Implicit Types (a : list (list A)) (r c : Z) (v : A).

Lemma shaped_spec W H' a :
  shaped W H' a = true <->
  length a = Z.to_nat H' /\ forall i row, a !! i = Some row -> length row = Z.to_nat W.
Proof.
  unfold shaped. rewrite andb_true_iff, Nat.eqb_eq, forallb_forall.
  split; intros [Hl Hr]; split; auto.
  - intros i row Hi. apply Nat.eqb_eq, Hr.
    apply list_elem_of_In, list_elem_of_lookup. eauto.
  - intros row Hin. apply Nat.eqb_eq.
    apply list_elem_of_In, list_elem_of_lookup in Hin as [i Hi]. eauto.
Qed.

Lemma shaped_set2 W H' a r c v :
  shaped W H' a = true -> shaped W H' (set2 a r c v) = true.
Proof.
  rewrite !shaped_spec. intros [Hl Hr]. unfold set2. split.
  - by rewrite length_alter.
  - intros i row. destruct (decide (i = Z.to_nat r)) as [->|Hne].
    + rewrite list_lookup_alter_eq. destruct (a !! Z.to_nat r) eqn:E; [|done].
      simpl. intros [= <-]. rewrite length_insert. eauto.
    + rewrite list_lookup_alter_ne by done. eauto.
Qed.

Lemma get2_set2_eq W H' a r c v :
  shaped W H' a = true -> in_domain W H' r c -> get2 (set2 a r c v) r c = v.
Proof.
  rewrite shaped_spec. intros [Hl Hr] [Hr1 Hc1]. unfold get2, set2.
  assert (Hlt : (Z.to_nat r < length a)%nat) by lia.
  destruct (lookup_lt_is_Some_2 a _ Hlt) as [row Hrow].
  rewrite (list_lookup_total_correct _ _ (<[Z.to_nat c:=v]> row)).
  - apply list_lookup_total_correct, list_lookup_insert_eq.
    rewrite (Hr _ _ Hrow). lia.
  - by rewrite list_lookup_alter_eq, Hrow.
Qed.

Lemma get2_set2_ne a r c r' c' v :
  0 <= r -> 0 <= c -> 0 <= r' -> 0 <= c' -> (r', c') <> (r, c) ->
  get2 (set2 a r c v) r' c' = get2 a r' c'.
Proof.
  intros ? ? ? ? Hne. unfold get2, set2.
  destruct (decide (r' = r)) as [->|Hr].
  - assert (c' <> c) by congruence.
    rewrite !list_lookup_total_alt, list_lookup_alter_eq.
    destruct (a !! Z.to_nat r) as [row|]; simpl; [|done].
    rewrite <- !list_lookup_total_alt. apply list_lookup_total_insert_ne. lia.
  - rewrite list_lookup_total_alter_ne by lia. done.
Qed.

(** Two arrays of the shape of the domain that agree on every cell of the
    domain are the same array. *)
Lemma shaped_ext W H' a b :
  shaped W H' a = true -> shaped W H' b = true ->
  (forall r c, in_domain W H' r c -> get2 a r c = get2 b r c) -> a = b.
Proof.
  rewrite !shaped_spec. intros [La Ra] [Lb Rb] Hget.
  apply list_eq. intros i.
  destruct (decide (i < length a)%nat) as [Hi|Hi].
  - destruct (lookup_lt_is_Some_2 a i Hi) as [ra Hra].
    destruct (lookup_lt_is_Some_2 b i ltac:(lia)) as [rb Hrb].
    rewrite Hra, Hrb. f_equal. apply list_eq. intros j.
    pose proof (Ra _ _ Hra) as Lra. pose proof (Rb _ _ Hrb) as Lrb.
    destruct (decide (j < length ra)%nat) as [Hj|Hj].
    + specialize (Hget (Z.of_nat i) (Z.of_nat j)). unfold get2, in_domain in Hget.
      rewrite !Nat2Z.id in Hget.
      rewrite (list_lookup_total_correct _ _ _ Hra) in Hget.
      rewrite (list_lookup_total_correct _ _ _ Hrb) in Hget.
      destruct (lookup_lt_is_Some_2 ra j Hj) as [x Hx].
      destruct (lookup_lt_is_Some_2 rb j ltac:(lia)) as [y Hy].
      rewrite (list_lookup_total_correct _ _ _ Hx) in Hget.
      rewrite (list_lookup_total_correct _ _ _ Hy) in Hget.
      rewrite Hx, Hy, Hget; [done | lia].
    + rewrite !lookup_ge_None_2; [done | lia | lia].
  - rewrite !lookup_ge_None_2; [done | lia | lia].
Qed.

End Arrays.

Lemma shaped_replicate {A} W H' (x : A) :
  shaped W H' (replicate (Z.to_nat H') (replicate (Z.to_nat W) x)) = true.
Proof.
  apply shaped_spec. split; [apply length_replicate|].
  intros i row [-> _]%lookup_replicate. apply length_replicate.
Qed.

Lemma get2_replicate {A} `{Inhabited A} W H' (x : A) r c :
  in_domain W H' r c ->
  get2 (replicate (Z.to_nat H') (replicate (Z.to_nat W) x)) r c = x.
Proof.
  intros [? ?]. unfold get2.
  rewrite lookup_total_replicate_2 by lia. apply lookup_total_replicate_2. lia.
Qed.

Section Loops.
Context {S : Type}.

Lemma for_range_succ (body : Z -> S -> S) i s :
  0 <= i -> for_range (i + 1) body s = body i (for_range i body s).
Proof.
  intros Hi. unfold for_range.
  replace (i + 1) with (Z.of_nat (Datatypes.S (Z.to_nat i))) by lia.
  rewrite seqZ_S, foldl_app. simpl.
  by rewrite Z2Nat.id by lia.
Qed.

Lemma for_range_nonpos (body : Z -> S -> S) n s :
  n <= 0 -> for_range n body s = s.
Proof.
  intros Hn. unfold for_range, seqZ.
  replace (Z.to_nat n) with 0%nat by lia. done.
Qed.

(** A loop invariant [P i] that holds before round [0] and is carried from
    round [i] to round [i + 1] holds after the loop. *)
Lemma for_range_ind (P : Z -> S -> Prop) n (body : Z -> S -> S) s :
  0 <= n -> P 0 s ->
  (forall i t, 0 <= i < n -> P i t -> P (i + 1) (body i t)) ->
  P n (for_range n body s).
Proof.
  intros Hn H0 Hstep.
  enough (forall k : nat, Z.of_nat k <= n -> P (Z.of_nat k) (for_range (Z.of_nat k) body s)) as E.
  { specialize (E (Z.to_nat n)). rewrite Z2Nat.id in E by lia. apply E. lia. }
  induction k as [|k IH]; intros Hk.
  - by rewrite for_range_nonpos.
  - replace (Z.of_nat (Datatypes.S k)) with (Z.of_nat k + 1) by lia.
    rewrite for_range_succ by lia. apply Hstep; [lia|]. apply IH. lia.
Qed.

(** The two nested loops over the domain.  [I] is what every round keeps;
    [C r c] is what the round at [(r, c)] establishes for its cell, and
    what the other rounds do not disturb. *)
Lemma for_domain_ind (I : S -> Prop) (C : Z -> Z -> S -> Prop)
      W H' (body : Z -> Z -> S -> S) s :
  I s ->
  (forall r c t, in_domain W H' r c -> I t -> I (body r c t) /\ C r c (body r c t)) ->
  (forall r c r' c' t, in_domain W H' r c -> in_domain W H' r' c' ->
      (r', c') <> (r, c) -> I t -> C r' c' t -> C r' c' (body r c t)) ->
  let s' := for_range H' (fun r => for_range W (fun c => body r c)) s in
  I s' /\ forall r c, in_domain W H' r c -> C r c s'.
Proof.
  intros HI Hbody Hframe s'. subst s'.
  destruct (Z.le_gt_cases H' 0) as [HH|HH].
  { rewrite for_range_nonpos by done. split; [done|]. intros r c [? ?]. lia. }
  destruct (Z.le_gt_cases W 0) as [HW|HW].
  { split.
    - apply (for_range_ind (fun _ t => I t)); [lia | done |].
      intros i t _ Ht. by rewrite for_range_nonpos.
    - intros r c [? ?]. lia. }
  pose (P := fun (i : Z) (t : S) =>
    I t /\ forall r c, in_domain W H' r c -> r < i -> C r c t).
  enough (P H' (for_range H' (fun r => for_range W (fun c => body r c)) s)) as [? E].
  { split; [done|]. intros r c Hd. apply E; [done|]. destruct Hd. lia. }
  apply for_range_ind; [lia | | ].
  { split; [done|]. intros r c [? ?] ?. lia. }
  intros i t Hi [HIt HCt].
  pose (Q := fun (j : Z) (u : S) =>
    I u /\ forall r c, in_domain W H' r c -> (r < i \/ (r = i /\ c < j)) -> C r c u).
  enough (Q W (for_range W (fun c => body i c) t)) as [? E].
  { split; [done|]. intros r c Hd Hr. apply E; [done|]. destruct Hd. lia. }
  apply for_range_ind; [lia | | ].
  { split; [done|]. intros r c Hd [?|[? ?]]; [by apply HCt | destruct Hd; lia]. }
  intros j u Hj [HIu HCu].
  assert (Hd : in_domain W H' i j) by (split; lia).
  destruct (Hbody i j u Hd HIu) as [HI' HC'].
  split; [done|]. intros r c Hd' Hrc.
  destruct (decide ((r, c) = (i, j))) as [[= -> ->]|Hne]; [done|].
  apply Hframe; try done. apply HCu; [done|].
  destruct Hrc as [?|[-> ?]]; [by left|]. right. split; [done|].
  assert (c <> j) by congruence. lia.
Qed.

End Loops.

(* ===================================================================== *)
(** * What a step and the initialisation leave in the grid *)
(* ===================================================================== *)

Lemma allocated_spec g :
  allocated g = true <->
  shaped (WIDTH g) (HEIGHT g) (h g) = true /\
  shaped (WIDTH g) (HEIGHT g) (vel g) = true /\
  shaped (WIDTH g) (HEIGHT g) (next_h g) = true /\
  shaped (WIDTH g) (HEIGHT g) (next_vel g) = true /\
  shaped (WIDTH g) (HEIGHT g) (obstacle g) = true.
Proof. unfold allocated. rewrite !andb_true_iff. tauto. Qed.

Lemma cell_ext p g t r c :
  same_input g t ->
  cell_h p t r c = cell_h p g r c /\ cell_vel p t r c = cell_vel p g r c.
Proof.
  destruct g, t. unfold same_input. simpl.
  intros (-> & -> & -> & -> & ->).
  cbv [cell_h cell_vel is_obstacle new_h new_vel laplacian_h h_up h_down h_left h_right
       h vel obstacle WIDTH HEIGHT].
  split; reflexivity.
Qed.

Lemma step_cell_frame p r c g : same_input g (step_cell p r c g).
Proof. unfold step_cell, same_input. by destruct (negb _). Qed.

Lemma step_cell_next p r c g :
  next_h (step_cell p r c g) = set2 (next_h g) r c (cell_h p g r c) /\
  next_vel (step_cell p r c g) = set2 (next_vel g) r c (cell_vel p g r c).
Proof.
  destruct g.
  cbv [step_cell cell_h cell_vel is_obstacle new_h new_vel laplacian_h
       h_up h_down h_left h_right with_next_h with_next_vel
       h vel next_h next_vel obstacle WIDTH HEIGHT].
  destruct (negb _); split; reflexivity.
Qed.

Lemma step_loops_spec p g :
  allocated g = true ->
  let g' := step_loops p g in
  same_input g g' /\
  shaped (WIDTH g) (HEIGHT g) (next_h g') = true /\
  shaped (WIDTH g) (HEIGHT g) (next_vel g') = true /\
  forall r c, in_domain (WIDTH g) (HEIGHT g) r c ->
    get2 (next_h g') r c = cell_h p g r c /\
    get2 (next_vel g') r c = cell_vel p g r c.
Proof.
  intros (_ & _ & Hnh & Hnv & _)%allocated_spec.
  pose (I := fun t : Grid =>
    same_input g t /\ shaped (WIDTH g) (HEIGHT g) (next_h t) = true
    /\ shaped (WIDTH g) (HEIGHT g) (next_vel t) = true).
  pose (C := fun (r c : Z) (t : Grid) =>
    get2 (next_h t) r c = cell_h p g r c /\ get2 (next_vel t) r c = cell_vel p g r c).
  destruct (for_domain_ind I C (WIDTH g) (HEIGHT g) (step_cell p) g) as [(? & ? & ?) HC].
  - split; [|done]. unfold same_input. tauto.
  - intros r c t Hd (Hin & Hh & Hv).
    destruct (step_cell_next p r c t) as [Eh Ev].
    destruct (cell_ext p g t r c Hin) as [Ech Ecv].
    pose proof (step_cell_frame p r c t) as Hf.
    unfold I, C. rewrite Eh, Ev, Ech, Ecv.
    split; [split; [|split] | split].
    + unfold same_input in *. intuition congruence.
    + by apply shaped_set2.
    + by apply shaped_set2.
    + by apply (get2_set2_eq (WIDTH g) (HEIGHT g)).
    + by apply (get2_set2_eq (WIDTH g) (HEIGHT g)).
  - intros r c r' c' t [? ?] [? ?] Hne _ [Ch Cv].
    destruct (step_cell_next p r c t) as [Eh Ev].
    unfold C. rewrite Eh, Ev, !get2_set2_ne by (done || lia). done.
  - done.
Qed.

(** One step: the dimensions and the obstacles stay, the grid keeps its
    shape, and every cell of the domain holds [cell_h] and [cell_vel] of the
    state before the step. *)
Lemma simulation_step_spec p g :
  allocated g = true ->
  let g' := simulation_step p g in
  WIDTH g' = WIDTH g /\ HEIGHT g' = HEIGHT g /\ obstacle g' = obstacle g /\
  allocated g' = true /\
  forall r c, in_domain (WIDTH g) (HEIGHT g) r c ->
    get2 (h g') r c = cell_h p g r c /\ get2 (vel g') r c = cell_vel p g r c.
Proof.
  intros Ha. destruct (step_loops_spec p g Ha) as ((EW & EH & Eh & Ev & Eo) & Snh & Snv & Hc).
  apply allocated_spec in Ha as (Sh & Sv & _ & _ & So).
  unfold simulation_step, swap_buffers. simpl.
  rewrite EW, EH, Eo, Eh, Ev. repeat split; try done.
  - apply allocated_spec. simpl. done.
  - by apply Hc.
  - by apply Hc.
Qed.

Lemma run_succ p n g : run p (S n) g = simulation_step p (run p n g).
Proof. revert g. induction n as [|n IH]; intros g; [done|]. simpl in *. by rewrite IH. Qed.

(** The shape, the dimensions and the obstacles after any number of steps. *)
Lemma run_frame p n g :
  allocated g = true ->
  WIDTH (run p n g) = WIDTH g /\ HEIGHT (run p n g) = HEIGHT g /\
  obstacle (run p n g) = obstacle g /\ allocated (run p n g) = true.
Proof.
  intros Ha. induction n as [|n (EW & EH & Eo & Ha')]; [done|].
  rewrite run_succ.
  destruct (simulation_step_spec p _ Ha') as (? & ? & ? & ? & _).
  repeat split; congruence.
Qed.

(** The code's neighbour tests pick the neighbour heights of the
    specification. *)
Lemma laplacian_h_spec g r c :
  in_domain (WIDTH g) (HEIGHT g) r c -> laplacian_h g r c = spec_laplacian g r c.
Proof.
  intros [Hr Hc]. unfold laplacian_h, spec_laplacian.
  assert (h_up g r c = neumann g r c (r - 1) c) as ->.
  { unfold h_up, neumann, exists_cell, is_obstacle. rewrite negb_involutive.
    replace (r - 1 <? HEIGHT g) with true by lia.
    replace (0 <=? c) with true by lia. replace (c <? WIDTH g) with true by lia.
    replace (0 <=? r - 1) with (r >? 0) by lia. by rewrite !andb_true_r. }
  assert (h_down g r c = neumann g r c (r + 1) c) as ->.
  { unfold h_down, neumann, exists_cell, is_obstacle. rewrite negb_involutive.
    replace (0 <=? r + 1) with true by lia.
    replace (0 <=? c) with true by lia. replace (c <? WIDTH g) with true by lia.
    replace (r + 1 <? HEIGHT g) with (r <? HEIGHT g - 1) by lia.
    by rewrite !andb_true_r. }
  assert (h_left g r c = neumann g r c r (c - 1)) as ->.
  { unfold h_left, neumann, exists_cell, is_obstacle. rewrite negb_involutive.
    replace (0 <=? r) with true by lia. replace (r <? HEIGHT g) with true by lia.
    replace (c - 1 <? WIDTH g) with true by lia.
    replace (0 <=? c - 1) with (c >? 0) by lia. by rewrite !andb_true_r. }
  assert (h_right g r c = neumann g r c r (c + 1)) as ->.
  { unfold h_right, neumann, exists_cell, is_obstacle. rewrite negb_involutive.
    replace (0 <=? r) with true by lia. replace (r <? HEIGHT g) with true by lia.
    replace (0 <=? c + 1) with true by lia.
    replace (c + 1 <? WIDTH g) with (c <? WIDTH g - 1) by lia. done. }
  done.
Qed.

(** The cell of a water cell after one step, in the words of the
    specification. *)
Lemma step_formula p g r c :
  allocated g = true ->
  in_domain (WIDTH g) (HEIGHT g) r c ->
  is_obstacle g r c = false ->
  get2 (vel (simulation_step p g)) r c = spec_vel p g r c /\
  get2 (h (simulation_step p g)) r c = spec_h p g r c.
Proof.
  intros Ha Hd Ho.
  destruct (simulation_step_spec p g Ha) as (_ & _ & _ & _ & Hc).
  destruct (Hc r c Hd) as [-> ->].
  unfold cell_h, cell_vel. rewrite Ho.
  unfold spec_h, spec_vel, clamp01, new_h, new_vel.
  by rewrite laplacian_h_spec.
Qed.

Lemma allocate_grids_spec W H' :
  let g := allocate_grids W H' in
  WIDTH g = W /\ HEIGHT g = H' /\ allocated g = true.
Proof.
  simpl. split; [done|]. split; [done|].
  apply allocated_spec. simpl. repeat split; apply shaped_replicate.
Qed.

Lemma init_loops_spec p g :
  allocated g = true ->
  let g' := init_loops p g in
  initialised p g g' /\
  forall r c, in_domain (WIDTH g) (HEIGHT g) r c ->
    get2 (obstacle g') r c = init_obstacle (WIDTH g) (HEIGHT g) r c /\
    get2 (h g') r c = init_h p (WIDTH g) (HEIGHT g) r c /\
    get2 (vel g') r c = zero.
Proof.
  intros (Sh & Sv & _ & _ & So)%allocated_spec.
  pose (C := fun (r c : Z) (t : Grid) =>
    get2 (obstacle t) r c = init_obstacle (WIDTH g) (HEIGHT g) r c /\
    get2 (h t) r c = init_h p (WIDTH g) (HEIGHT g) r c /\
    get2 (vel t) r c = zero).
  apply (for_domain_ind (initialised p g) C (WIDTH g) (HEIGHT g) (init_cell p) g).
  - unfold initialised. tauto.
  - intros r c t Hd (EW & EH & Enh & Env & Sh' & Sv' & So').
    unfold initialised, C, init_cell, init_obstacle, init_h, border, clamp01.
    rewrite EW, EH.
    destruct ((r =? 0) || (r =? HEIGHT g - 1) || (c =? 0) || (c =? WIDTH g - 1)); simpl.
    + rewrite !(get2_set2_eq (WIDTH g) (HEIGHT g)) by done.
      repeat split; try done; by apply shaped_set2.
    + rewrite EW.
      rewrite !(get2_set2_eq (WIDTH g) (HEIGHT g)) by (done || by repeat apply shaped_set2).
      repeat split; try done; by repeat apply shaped_set2.
  - intros r c r' c' t [? ?] [? ?] Hne _ (Co & Ch & Cv).
    unfold C, init_cell.
    destruct ((r =? 0) || (r =? HEIGHT t - 1) || (c =? 0) || (c =? WIDTH t - 1)); simpl;
      rewrite !get2_set2_ne by (done || lia); done.
Qed.

Lemma centre_interior W H' :
  H' > 2 -> W > 2 ->
  in_domain W H' (H' ÷ 2) (W ÷ 2) /\ border W H' (H' ÷ 2) (W ÷ 2) = false.
Proof.
  intros HH HW.
  pose proof (Z.quot_div_nonneg H' 2 ltac:(lia) ltac:(lia)) as EH.
  pose proof (Z.quot_div_nonneg W 2 ltac:(lia) ltac:(lia)) as EW.
  rewrite EH, EW. unfold in_domain, border.
  pose proof (Z.div_mod H' 2 ltac:(lia)). pose proof (Z.mod_pos_bound H' 2 ltac:(lia)).
  pose proof (Z.div_mod W 2 ltac:(lia)). pose proof (Z.mod_pos_bound W 2 ltac:(lia)).
  split; [lia|]. rewrite !orb_false_iff. lia.
Qed.

(** The grid after [initialize_simulation] on freshly allocated arrays:
    walls on the border, still water inside on the tilted level, and the
    bump of the central disturbance when it is applied. *)
Lemma initialize_simulation_spec p W H' :
  let g := initialize_simulation p (allocate_grids W H') in
  WIDTH g = W /\ HEIGHT g = H' /\ allocated g = true /\
  forall r c, in_domain W H' r c ->
    get2 (obstacle g) r c = init_obstacle W H' r c /\
    get2 (vel g) r c = zero /\
    get2 (h g) r c =
      if disturbed p W H' && (r =? H' ÷ 2) && (c =? W ÷ 2)
      then fminf one (add (G_INITIAL_WATER_LEVEL p) (lit 4 10))
      else init_h p W H' r c.
Proof.
  destruct (allocate_grids_spec W H') as (EW0 & EH0 & Ha0).
  destruct (init_loops_spec p _ Ha0) as ((EW & EH & Enh & Env & Sh & Sv & So) & Hc).
  apply allocated_spec in Ha0 as (_ & _ & Snh & Snv & _).
  rewrite EW0, EH0 in *.
  unfold initialize_simulation, disturb.
  set (t := init_loops p (allocate_grids W H')) in *.
  rewrite EW, EH. fold (disturbed p W H').
  destruct (disturbed p W H') eqn:Ed; simpl.
  - unfold disturbed in Ed. rewrite !andb_true_iff in Ed. destruct Ed as [[_ HH] HW].
    destruct (centre_interior W H' ltac:(lia) ltac:(lia)) as [Hdc Hb].
    destruct (Hc _ _ Hdc) as (Eo & _ & _).
    rewrite Eo.
    replace (init_obstacle W H' (H' ÷ 2) (W ÷ 2)) with 0
      by (unfold init_obstacle; by rewrite Hb).
    simpl.
    split; [done|]. split; [done|]. split.
    { apply allocated_spec. simpl. rewrite EW, EH, Enh, Env.
      repeat split; try done. by apply shaped_set2. }
    intros r c Hd. destruct (Hc r c Hd) as (Eo' & Eh' & Ev').
    split; [done|]. split; [done|].
    destruct (decide ((r, c) = (H' ÷ 2, W ÷ 2))) as [[= -> ->]|Hne].
    + rewrite !Z.eqb_refl. simpl. by apply (get2_set2_eq W H').
    + destruct Hd, Hdc.
      rewrite get2_set2_ne by (done || lia).
      replace ((r =? H' ÷ 2) && (c =? W ÷ 2)) with false; [done|].
      symmetry. apply andb_false_iff.
      destruct (Z.eqb_spec r (H' ÷ 2)), (Z.eqb_spec c (W ÷ 2)); try tauto. congruence.
  - split; [done|]. split; [done|]. split.
    { apply allocated_spec. rewrite EW, EH, Enh, Env. done. }
    intros r c Hd. destruct (Hc r c Hd) as (Eo' & Eh' & Ev'). done.
Qed.

(* ===================================================================== *)
(** * Comparisons and clamping in binary32 *)
(* ===================================================================== *)

Lemma ltb_leb x y : ltb x y = true -> leb x y = true.
Proof. unfold ltb, leb, SFltb, SFleb. by destruct (SFcompare x y) as [[]|]. Qed.

Lemma leb_zero_one : leb zero one = true.
Proof. reflexivity. Qed.

Lemma leb_one_one : leb one one = true.
Proof. reflexivity. Qed.

Lemma leb_zero_zero : leb zero zero = true.
Proof. reflexivity. Qed.

(** [fminf one y] lies in [[0, 1]] as soon as [y] is not below zero. *)
Lemma fminf_one_range y :
  (y = S754_nan \/ leb zero y = true) ->
  leb zero (fminf one y) = true /\ leb (fminf one y) one = true.
Proof.
  intros [->|Hy]; [done|].
  assert (fminf one y = if ltb y one then y else one) as ->.
  { destruct y; try done. }
  destruct (ltb y one) eqn:E; [|done].
  split; [done | by apply ltb_leb].
Qed.

Lemma fmaxf_zero_nonneg x : leb zero (fmaxf zero x) = true.
Proof.
  assert (fmaxf zero x = zero \/ (fmaxf zero x = x /\ ltb zero x = true)) as [->|[-> E]].
  { destruct x; try (by left); unfold fmaxf;
      (destruct (ltb zero _) eqn:E; [by right | by left]). }
  - done.
  - by apply ltb_leb.
Qed.

(** The clamp of any float, a NaN included, lies in [[0, 1]]. *)
Lemma clamp01_range x :
  leb zero (clamp01 x) = true /\ leb (clamp01 x) one = true.
Proof. apply fminf_one_range. right. apply fmaxf_zero_nonneg. Qed.

(** Rounding keeps the sign. *)
Lemma binary_round_aux_sign s m e l :
  match binary_round_aux prec emax s m e l with
  | S754_zero s' | S754_infinity s' | S754_finite s' _ _ => s' = s
  | S754_nan => True
  end.
Proof.
  unfold binary_round_aux.
  destruct (shr_fexp prec emax m e l) as [mrs' e'].
  destruct (shr_fexp prec emax _ e' loc_Exact) as [mrs'' e''].
  destruct (shr_m mrs''); try done.
  by destruct (e'' <=? emax - prec).
Qed.

Lemma binary_round_sign s m e :
  match binary_round prec emax s m e with
  | S754_zero s' | S754_infinity s' | S754_finite s' _ _ => s' = s
  | S754_nan => True
  end.
Proof.
  unfold binary_round. destruct (shl_align _ _ _) as [mz ez].
  apply binary_round_aux_sign.
Qed.

(** The sum of a float that is not negative and a positive number is a NaN
    or not below zero. *)
Lemma add_nonneg x m e :
  ltb x zero = false ->
  let y := add x (S754_finite false m e) in
  y = S754_nan \/ leb zero y = true.
Proof.
  intros Hx. destruct x as [s|[]| |[] mx ex]; simpl; try (by left); try (by right); try done.
  unfold add, SFadd. cbn [cond_Zopp Z.add].
  unfold binary_normalize. rewrite <- Pos2Z.inj_add.
  pose proof (binary_round_sign false
    (fst (shl_align mx ex (Z.min ex e)) + fst (shl_align m e (Z.min ex e))) (Z.min ex e)) as Hs.
  destruct (binary_round _ _ _ _ _) as [s'|s'| |s' m' e']; try (by left); subst s'; by right.
Qed.

Lemma validate_level p :
  validate p = None -> ltb (G_INITIAL_WATER_LEVEL p) zero = false.
Proof.
  unfold validate.
  destruct (leb (G_DT p) _); [done|]. destruct (leb (G_WAVE_SPEED_SQ p) _); [done|].
  destruct (ltb (G_DAMPING p) _); [done|].
  destruct (ltb (G_INITIAL_WATER_LEVEL p) zero); [done|]. done.
Qed.

(** The bump of the central disturbance lies in [[0, 1]] for a level that
    passed the validation. *)
Lemma bump_range p :
  validate p = None ->
  let b := fminf one (add (G_INITIAL_WATER_LEVEL p) (lit 4 10)) in
  leb zero b = true /\ leb b one = true.
Proof.
  intros Hv. apply fminf_one_range.
  change (lit 4 10) with (S754_finite false 13421773 (-25)).
  apply add_nonneg. by apply validate_level.
Qed.

(* ===================================================================== *)
(** * The invariants of the grid *)
(* ===================================================================== *)

Lemma is_obstacle_init W H' r c :
  negb (init_obstacle W H' r c =? 0) = border W H' r c.
Proof. unfold init_obstacle. by destruct (border W H' r c). Qed.

(** One step keeps water heights in [[0, 1]], whatever the state before. *)
Lemma step_height_clamped p g r c :
  allocated g = true -> in_domain (WIDTH g) (HEIGHT g) r c ->
  is_obstacle g r c = false ->
  leb zero (get2 (h (simulation_step p g)) r c) = true /\
  leb (get2 (h (simulation_step p g)) r c) one = true.
Proof.
  intros Ha Hd Ho. destruct (step_formula p g r c Ha Hd Ho) as [_ ->].
  apply clamp01_range.
Qed.

(** The obstacles of every state the program reaches are the border. *)
Lemma reached_frame p W H' n :
  let g := run p n (initialize_simulation p (allocate_grids W H')) in
  WIDTH g = W /\ HEIGHT g = H' /\ allocated g = true /\
  obstacle g = obstacle (initialize_simulation p (allocate_grids W H')) /\
  forall r c, in_domain W H' r c -> is_obstacle g r c = border W H' r c.
Proof.
  destruct (initialize_simulation_spec p W H') as (EW & EH & Ha & Hc).
  destruct (run_frame p n _ Ha) as (EW' & EH' & Eo & Ha').
  simpl. rewrite EW', EH', EW, EH. repeat split; try done.
  intros r c Hd. unfold is_obstacle. rewrite Eo.
  destruct (Hc r c Hd) as (-> & _). apply is_obstacle_init.
Qed.

Lemma centre_not_border p W H' r c :
  disturbed p W H' && (r =? H' ÷ 2) && (c =? W ÷ 2) = true -> border W H' r c = false.
Proof.
  unfold disturbed. rewrite !andb_true_iff.
  intros [[[[_ HH] HW] ->%Z.eqb_eq] ->%Z.eqb_eq].
  apply centre_interior; lia.
Qed.

(** Walls hold no water and do not move, in every state the program
    reaches. *)
Lemma reached_walls p W H' n r c :
  let g := run p n (initialize_simulation p (allocate_grids W H')) in
  in_domain W H' r c -> border W H' r c = true ->
  get2 (h g) r c = zero /\ get2 (vel g) r c = zero.
Proof.
  intros g Hd Hb. subst g. destruct n as [|n].
  - destruct (initialize_simulation_spec p W H') as (_ & _ & _ & Hc).
    destruct (Hc r c Hd) as (_ & Ev & Eh). simpl. split; [|done].
    rewrite Eh. destruct (disturbed p W H' && (r =? H' ÷ 2) && (c =? W ÷ 2)) eqn:E.
    + apply centre_not_border in E. congruence.
    + unfold init_h. by rewrite Hb.
  - rewrite run_succ.
    destruct (reached_frame p W H' n) as (EW & EH & Ha & _ & Ho).
    destruct (simulation_step_spec p _ Ha) as (_ & _ & _ & _ & Hc).
    rewrite EW, EH in Hc. destruct (Hc r c Hd) as [-> ->].
    unfold cell_h, cell_vel. by rewrite Ho, Hb.
Qed.

(** Water heights lie in [[0, 1]] in every state the program reaches from
    validated parameters. *)
Lemma reached_clamped p W H' n r c :
  validate p = None ->
  let g := run p n (initialize_simulation p (allocate_grids W H')) in
  in_domain W H' r c -> is_obstacle g r c = false ->
  leb zero (get2 (h g) r c) = true /\ leb (get2 (h g) r c) one = true.
Proof.
  intros Hv g Hd Ho. subst g. destruct n as [|n].
  - destruct (reached_frame p W H' 0) as (_ & _ & _ & _ & Hob).
    rewrite Hob in Ho by done. simpl in *.
    destruct (initialize_simulation_spec p W H') as (_ & _ & _ & Hc).
    destruct (Hc r c Hd) as (_ & _ & ->).
    destruct (disturbed p W H' && (r =? H' ÷ 2) && (c =? W ÷ 2)).
    + by apply bump_range.
    + unfold init_h. rewrite Ho. apply clamp01_range.
  - rewrite run_succ in *.
    destruct (reached_frame p W H' n) as (EW & EH & Ha & _ & Hob).
    destruct (reached_frame p W H' (S n)) as (_ & _ & _ & _ & Hob').
    rewrite run_succ in Hob'.
    apply step_height_clamped; try done.
    + by rewrite EW, EH.
    + rewrite Hob by done. by rewrite <- Hob'.
Qed.

(** The next buffers are scratch: a step overwrites them whole. *)
Lemma step_ignores_scratch p g1 g2 :
  allocated g1 = true -> allocated g2 = true -> same_input g1 g2 ->
  h (simulation_step p g1) = h (simulation_step p g2) /\
  vel (simulation_step p g1) = vel (simulation_step p g2).
Proof.
  intros Ha1 Ha2 Hin.
  destruct (simulation_step_spec p g1 Ha1) as (EW1 & EH1 & _ & Ha1' & Hc1).
  destruct (simulation_step_spec p g2 Ha2) as (EW2 & EH2 & _ & Ha2' & Hc2).
  pose proof Hin as (EW & EH & _).
  apply allocated_spec in Ha1' as (Sh1 & Sv1 & _).
  apply allocated_spec in Ha2' as (Sh2 & Sv2 & _).
  rewrite EW1, EH1 in *. rewrite EW2, EH2, EW, EH in *.
  split.
  - apply (shaped_ext (WIDTH g1) (HEIGHT g1)); try done.
    intros r c Hd. destruct (Hc1 r c Hd) as [-> _]. destruct (Hc2 r c Hd) as [-> _].
    symmetry. by apply cell_ext.
  - apply (shaped_ext (WIDTH g1) (HEIGHT g1)); try done.
    intros r c Hd. destruct (Hc1 r c Hd) as [_ ->]. destruct (Hc2 r c Hd) as [_ ->].
    symmetry. by apply cell_ext.
Qed.

(** [<] on floats is transitive. *)
Lemma ltb_trans x y z : ltb x y = true -> ltb y z = true -> ltb x z = true.
Proof.
  unfold ltb, SFltb, SFcompare.
  destruct x as [[]|[]| |[] mx ex], y as [[]|[]| |[] my ey], z as [[]|[]| |[] mz ez];
    try done;
    change (Pos.compare_cont Eq) with Pos.compare;
    destruct (Z.compare_spec ex ey), (Z.compare_spec ey ez), (Z.compare_spec ex ez);
    try done; try lia;
    destruct (Pos.compare_spec mx my), (Pos.compare_spec my mz), (Pos.compare_spec mx mz);
    try done; try lia.
Qed.

(** Below a threshold, below every larger one. *)
Lemma not_gtb_mono t1 t2 x : ltb t1 t2 = true -> gtb x t1 = false -> gtb x t2 = false.
Proof.
  unfold gtb. intros Ht Hx. destruct (SFltb t2 x) eqn:E; [|done].
  change (ltb t2 x = true) in E. change (ltb t1 x = false) in Hx.
  by rewrite (ltb_trans _ _ _ Ht E) in Hx.
Qed.

(* ===================================================================== *)
(** * The command line *)
(* ===================================================================== *)

Section CommandLine.
Context `{Libc}.

(** Arguments the loop has consumed without returning can be cut off. *)
Lemma parse_args_app pre rest p p' :
  parse_args pre p = Parsed p' ->
  parse_args (pre ++ rest) p = parse_args rest p'.
Proof.
  remember (length pre) as n eqn:Hn.
  revert pre p Hn. induction n as [n IH] using lt_wf_ind.
  intros [|a [|v pre']] p Hn; simpl.
  - by intros [= ->].
  - repeat (destruct (String.eqb a _); [done|]). by destruct (_ || _).
  - simpl in Hn.
    repeat (destruct (String.eqb a _);
            [apply (IH (length pre')); [lia | done] |]).
    by destruct (_ || _).
Qed.

Lemma parse_help a rest p : is_help a = true -> parse_args (a :: rest) p = Return 0 [Usage].
Proof.
  unfold is_help. intros [E|E]%orb_true_iff; apply String.eqb_eq in E; by subst a.
Qed.

Lemma parse_unknown a rest p :
  recognised a = false -> parse_args (a :: rest) p = Return 1 [UnknownOption a; Usage].
Proof.
  unfold recognised, takes_value, is_help. rewrite !orb_false_iff.
  intros [[[[[[E1 E2] E3] E4] E5] E6] [E7 E8]]. simpl.
  by rewrite E1, E2, E3, E4, E5, E6, E7, E8.
Qed.

Lemma parse_missing a p : takes_value a = true -> parse_args [a] p = Return 1 [Usage].
Proof.
  unfold takes_value. simpl. intros E.
  repeat (destruct (String.eqb a _); [done|]). done.
Qed.

Lemma validate_invalid p :
  invalid p = true -> exists msg, validate p = Some msg /\ names_failure p msg.
Proof.
  unfold invalid, validate, names_failure. change (of_int 0) with zero.
  destruct (leb (G_DT p) zero); [eauto 10|].
  destruct (leb (G_WAVE_SPEED_SQ p) zero); [eauto 10|].
  destruct (ltb (G_DAMPING p) zero); [eauto 10|].
  destruct (ltb (G_INITIAL_WATER_LEVEL p) zero || gtb (G_INITIAL_WATER_LEVEL p) one);
    [eauto 10|].
  destruct (ltb (G_INITIAL_TILT p) zero || gtb (G_INITIAL_TILT p) one); [eauto 10|].
  destruct (Z.ltb_spec (G_SLEEP_MS p) 0); [|done].
  intros _. eexists. split; [done|]. do 5 right. done.
Qed.

Lemma validate_valid p : invalid p = false -> validate p = None.
Proof.
  unfold invalid, validate. change (of_int 0) with zero.
  rewrite !orb_false_iff. intros [[[[[-> ->] ->] [-> ->]] [-> ->]] ->]. done.
Qed.

Lemma main_return prog args ws code out :
  parse_args args default_params = Return code out ->
  main (prog :: args) ws = Exit code out.
Proof. unfold main. simpl. by intros ->. Qed.

Lemma main_invalid prog args ws p msg :
  parse_args args default_params = Parsed p -> validate p = Some msg ->
  main (prog :: args) ws = Exit 1 [Error msg].
Proof. unfold main. simpl. by intros -> ->. Qed.

Lemma main_valid prog args ws p :
  parse_args args default_params = Parsed p -> validate p = None ->
  exists out,
    main (prog :: args) ws = Simulating p (initial_grid p ws) out /\
    (unstable p = true -> In (StabilityWarning (stability_metric p)) out).
Proof.
  unfold main, initial_grid. simpl. intros -> ->.
  destruct (get_terminal_size ws) as [W0 H0]. destruct (usable_size W0 H0) as [W H'].
  eexists. split; [done|]. intros ->. by left.
Qed.

End CommandLine.

Lemma usable_size_spec W H' :
  usable_size W H' = ((if W <? 10 then 20 else W), (if H' <? 5 then 10 else H')).
Proof. unfold usable_size. by destruct (W <? 10), (H' <? 5). Qed.

(* ===================================================================== *)
(** * Exact sums in binary32 and the flat grid *)
(* ===================================================================== *)

Lemma digits2_size p : digits2_pos p = Pos.size p.
Proof. induction p; simpl; congruence. Qed.

Lemma digits_eq M d : 2 ^ (d - 1) <= Z.pos M < 2 ^ d -> 0 < d -> Z.pos (digits2_pos M) = d.
Proof.
  intros [Hlo Hhi] Hd. rewrite digits2_size.
  pose proof (Pos.size_gt M) as Hgt. pose proof (Pos.size_le M) as Hle.
  apply Pos2Z.pos_lt_pos in Hgt. apply Pos2Z.pos_le_pos in Hle.
  rewrite Pos2Z.inj_pow in Hgt, Hle. change (Z.pos M~0) with (2 * Z.pos M) in Hle.
  assert (Hs : 0 < Z.pos (Pos.size M)) by lia.
  generalize dependent (Z.pos (Pos.size M)). intros s Hgt Hle Hs.
  destruct (Z.lt_trichotomy s d) as [Hlt|[->|Hgt']]; [|done|].
  - assert (2 ^ s <= 2 ^ (d - 1)) by (apply Z.pow_le_mono_r; lia). lia.
  - assert (2 ^ (Z.succ d) <= 2 ^ s) by (apply Z.pow_le_mono_r; lia).
    rewrite Z.pow_succ_r in * by lia. lia.
Qed.

Lemma fexp_eq x : fexp prec emax x = Z.max (x - 24) (-149).
Proof. reflexivity. Qed.

(** One right shift, in arithmetic. *)
Lemma shr_1_pos M r s :
  shr_1 (Build_shr_record (Z.pos M) r s) =
  Build_shr_record (Z.pos M / 2) (Z.odd (Z.pos M)) (r || s).
Proof.
  destruct M as [M|M|]; simpl.
  - f_equal. rewrite Pos2Z.inj_xI. symmetry.
    rewrite Z.add_comm, Z.mul_comm, Z.div_add by lia. reflexivity.
  - f_equal. rewrite Pos2Z.inj_xO. symmetry.
    rewrite Z.mul_comm, Z.div_mul by lia. reflexivity.
  - reflexivity.
Qed.

Lemma digits_bounds M :
  2 ^ (Z.pos (digits2_pos M) - 1) <= Z.pos M < 2 ^ Z.pos (digits2_pos M).
Proof.
  rewrite digits2_size.
  pose proof (Pos.size_gt M) as Hgt. pose proof (Pos.size_le M) as Hle.
  apply Pos2Z.pos_lt_pos in Hgt. apply Pos2Z.pos_le_pos in Hle.
  rewrite Pos2Z.inj_pow in Hgt, Hle. change (Z.pos M~0) with (2 * Z.pos M) in Hle.
  split; [|done].
  replace (Z.pos (Pos.size M)) with (Z.succ (Z.pos (Pos.size M) - 1)) in Hle by lia.
  rewrite Z.pow_succ_r in Hle by lia. lia.
Qed.

Lemma digits_le M n : 0 <= n -> Z.pos M < 2 ^ n -> Z.pos (digits2_pos M) <= n.
Proof.
  intros Hn HM. destruct (digits_bounds M) as [Hlo _].
  destruct (Z.le_gt_cases (Z.pos (digits2_pos M)) n) as [|Hgt]; [done|].
  assert (2 ^ n <= 2 ^ (Z.pos (digits2_pos M) - 1)) by (apply Z.pow_le_mono_r; lia). lia.
Qed.

Lemma even_pos_true q : Z.Even (Z.pos q) -> Z.even (Z.pos q) = true.
Proof. apply Z.even_spec. Qed.

Lemma even_pos_false q : Z.Even (Z.pos q + 1) -> Z.even (Z.pos q) = false.
Proof.
  intros [t Ht]. destruct (Z.even (Z.pos q)) eqn:E; [|done].
  apply Z.even_spec in E as [u Hu]. lia.
Qed.

Lemma round_tie q : { q' : positive |
  (if Z.even (Z.pos q) then Z.pos q else Z.pos q + 1) = Z.pos q' /\
  Z.Even (Z.pos q') /\ (Z.pos q' = Z.pos q \/ Z.pos q' = Z.pos q + 1) }.
Proof.
  destruct (Z.even (Z.pos q)) eqn:E.
  - exists q. split; [done|]. split; [by apply Z.even_spec | by left].
  - exists (q + 1)%positive. split; [lia|]. split; [|right; lia].
    rewrite Pos2Z.inj_add. apply Z.even_spec. rewrite Z.even_add, E. reflexivity.
Qed.

(** Rounding when the mantissa already fits. *)
Lemma bra_exact s M E :
  fexp prec emax (Z.pos (digits2_pos M) + E) = E -> E <= 104 ->
  binary_round_aux prec emax s (Z.pos M) E loc_Exact = S754_finite s M E.
Proof.
  intros HE Hmax. unfold binary_round_aux, shr_fexp. cbn [Zdigits2 shr_record_of_loc].
  rewrite HE, Z.sub_diag. cbn [shr shr_m loc_of_shr_record round_nearest_even Zdigits2
                                shr_record_of_loc].
  rewrite HE, Z.sub_diag. cbn [shr shr_m].
  replace (E <=? emax - prec) with true by (unfold emax, prec; lia). done.
Qed.

(** Rounding that drops one bit. *)
Lemma bra_shift1 s M E :
  fexp prec emax (Z.pos (digits2_pos M) + E) = E + 1 -> 2 <= Z.pos M ->
  exists q : positive, rne1 (Z.pos M) (Z.pos q) /\
    (fexp prec emax (Z.pos (digits2_pos q) + (E + 1)) = E + 1 -> E + 1 <= 104 ->
     binary_round_aux prec emax s (Z.pos M) E loc_Exact = S754_finite s q (E + 1)).
Proof.
  intros HE HM. unfold binary_round_aux, shr_fexp. cbn [Zdigits2 shr_record_of_loc].
  rewrite HE. replace (E + 1 - E) with 1 by lia. cbn [shr SpecFloat.iter_pos].
  destruct M as [M|M|]; [| |lia]; cbn [shr_1 orb shr_m loc_of_shr_record round_nearest_even].
  - destruct (round_tie M) as (q & -> & Hev & Hq). exists q. split.
    { unfold rne1. destruct Hq; [right; left | right; right]; split; (done || lia). }
    intros Hq' Hmax. cbn [Zdigits2 shr_record_of_loc]. rewrite Hq', Z.sub_diag.
    cbn [shr shr_m]. replace (E + 1 <=? emax - prec) with true by (unfold emax, prec; lia).
    done.
  - exists M. split; [left; lia|].
    intros Hq' Hmax. cbn [Zdigits2 shr_record_of_loc]. rewrite Hq', Z.sub_diag.
    cbn [shr shr_m]. replace (E + 1 <=? emax - prec) with true by (unfold emax, prec; lia).
    done.
Qed.

Ltac finish_round Hq' Hmax :=
  intros Hq' Hmax; cbn [Zdigits2 shr_record_of_loc]; rewrite Hq', Z.sub_diag;
  cbn [shr shr_m];
  match goal with
  | |- context [?e <=? emax - prec] =>
      replace (e <=? emax - prec) with true by (unfold emax, prec; lia)
  end; reflexivity.

(** Rounding that drops two bits. *)
Lemma bra_shift2 s M E :
  fexp prec emax (Z.pos (digits2_pos M) + E) = E + 2 -> 4 <= Z.pos M ->
  exists q : positive, rne2 (Z.pos M) (Z.pos q) /\
    (fexp prec emax (Z.pos (digits2_pos q) + (E + 2)) = E + 2 -> E + 2 <= 104 ->
     binary_round_aux prec emax s (Z.pos M) E loc_Exact = S754_finite s q (E + 2)).
Proof.
  intros HE HM. unfold binary_round_aux, shr_fexp. cbn [Zdigits2 shr_record_of_loc].
  rewrite HE. replace (E + 2 - E) with 2 by lia. cbn [shr SpecFloat.iter_pos].
  destruct M as [[M|M|]|[M|M|]|]; try lia;
    cbn [shr_1 orb shr_m loc_of_shr_record round_nearest_even].
  - exists (M + 1)%positive. split; [unfold rne2; lia|].
    replace (Z.pos M + 1) with (Z.pos (M + 1)) by lia. finish_round Hq' Hmax.
  - exists M. split; [unfold rne2; lia|]. finish_round Hq' Hmax.
  - destruct (round_tie M) as (q & -> & Hev & Hq). exists q. split.
    { unfold rne2. destruct Hq; [do 3 right; left | do 4 right]; split; (done || lia). }
    finish_round Hq' Hmax.
  - exists M. split; [unfold rne2; lia|]. finish_round Hq' Hmax.
Qed.

Lemma binary_round_noshl s M E :
  E <= fexp prec emax (Z.pos (digits2_pos M) + E) ->
  binary_round prec emax s M E = binary_round_aux prec emax s (Z.pos M) E loc_Exact.
Proof.
  intros HE. unfold binary_round, shl_align.
  destruct (fexp prec emax (Z.pos (digits2_pos M) + E) - E) eqn:Hd; try done. lia.
Qed.

(** Sums of positive floats whose exponents differ by at most two. *)
Lemma add_exp0 a b E :
  add (S754_finite false a E) (S754_finite false b E) =
  binary_round prec emax false (a + b) E.
Proof.
  unfold add, SFadd, shl_align. rewrite Z.min_id, Z.sub_diag. reflexivity.
Qed.

Lemma add_exp1 a b E :
  add (S754_finite false a (E + 1)) (S754_finite false b E) =
  binary_round prec emax false (a~0 + b)%positive E.
Proof.
  unfold add, SFadd, shl_align. rewrite Z.min_r by lia.
  rewrite Z.sub_diag. replace (E - (E + 1)) with (-1) by lia. reflexivity.
Qed.

Lemma add_exp2 a b E :
  add (S754_finite false a (E + 2)) (S754_finite false b E) =
  binary_round prec emax false (a~0~0 + b)%positive E.
Proof.
  unfold add, SFadd, shl_align. rewrite Z.min_r by lia.
  rewrite Z.sub_diag. replace (E - (E + 2)) with (-2) by lia. reflexivity.
Qed.

Lemma sub_self m e : sub (S754_finite false m e) (S754_finite false m e) = zero.
Proof.
  unfold sub, SFsub. cbn [cond_Zopp]. rewrite Z.sub_diag. reflexivity.
Qed.

Lemma digits_24 M : 8388608 <= Z.pos M < 16777216 -> Z.pos (digits2_pos M) = 24.
Proof. intros. apply digits_eq; [|lia]. change (2 ^ (24 - 1)) with 8388608. change (2 ^ 24) with 16777216. lia. Qed.

Lemma digits_25 M : 16777216 <= Z.pos M < 33554432 -> Z.pos (digits2_pos M) = 25.
Proof. intros. apply digits_eq; [|lia]. change (2 ^ (25 - 1)) with 16777216. change (2 ^ 25) with 33554432. lia. Qed.

Lemma digits_26 M : 33554432 <= Z.pos M < 67108864 -> Z.pos (digits2_pos M) = 26.
Proof. intros. apply digits_eq; [|lia]. change (2 ^ (26 - 1)) with 33554432. change (2 ^ 26) with 67108864. lia. Qed.

Lemma digits_le_23 M : Z.pos M < 8388608 -> Z.pos (digits2_pos M) <= 23.
Proof. intros. apply digits_le; [lia|]. by change (2 ^ 23) with 8388608. Qed.

Lemma digits_le_24 M : Z.pos M < 16777216 -> Z.pos (digits2_pos M) <= 24.
Proof. intros. apply digits_le; [lia|]. by change (2 ^ 24) with 16777216. Qed.

(** A canonical binary32 mantissa is normal, or subnormal at the least
    exponent. *)
Lemma canonical_cases m e :
  canonical_mantissa prec emax m e = true ->
  (8388608 <= Z.pos m < 16777216 /\ -149 <= e) \/ (Z.pos m < 8388608 /\ e = -149).
Proof.
  unfold canonical_mantissa. intros Hc%Z.eqb_eq. rewrite fexp_eq in Hc.
  destruct (digits_bounds m) as [Hlo Hhi].
  destruct (Z.le_gt_cases 24 (Z.pos (digits2_pos m))) as [Hd|Hd].
  - assert (Z.pos (digits2_pos m) = 24) as E by lia. rewrite E in *.
    change (2 ^ (24 - 1)) with 8388608 in Hlo. change (2 ^ 24) with 16777216 in Hhi.
    left. lia.
  - right. split; [|lia].
    assert (2 ^ Z.pos (digits2_pos m) <= 2 ^ 23) by (apply Z.pow_le_mono_r; lia).
    change (2 ^ 23) with 8388608 in *. lia.
Qed.

(** The three roundings of a positive sum. *)
Lemma round_exact M E :
  Z.pos M < 16777216 -> (E = -149 \/ (8388608 <= Z.pos M /\ -149 <= E)) -> E <= 104 ->
  binary_round prec emax false M E = S754_finite false M E.
Proof.
  intros HM HE Hmax.
  assert (Hf : fexp prec emax (Z.pos (digits2_pos M) + E) = E).
  { rewrite fexp_eq. destruct HE as [->|[Hlo HE]].
    - pose proof (digits_le_24 M HM). lia.
    - rewrite (digits_24 M) by lia. lia. }
  rewrite binary_round_noshl by lia. by apply bra_exact.
Qed.

Lemma round_1 M E :
  16777216 <= Z.pos M < 33554432 -> -150 <= E ->
  exists q : positive, rne1 (Z.pos M) (Z.pos q) /\
    (Z.pos q < 16777216 -> E + 1 <= 104 ->
     binary_round prec emax false M E = S754_finite false q (E + 1)).
Proof.
  intros HM HE.
  assert (Hf : fexp prec emax (Z.pos (digits2_pos M) + E) = E + 1).
  { rewrite fexp_eq, (digits_25 M) by lia. lia. }
  destruct (bra_shift1 false M E Hf ltac:(lia)) as (q & Hq & Hr).
  exists q. split; [done|]. intros Hq' Hmax.
  rewrite binary_round_noshl by lia. apply Hr; [|done].
  rewrite fexp_eq, (digits_24 q); [lia|]. unfold rne1 in Hq. lia.
Qed.

Lemma round_2 M E :
  33554432 <= Z.pos M < 67108864 -> -151 <= E ->
  exists q : positive, rne2 (Z.pos M) (Z.pos q) /\
    (Z.pos q < 16777216 -> E + 2 <= 104 ->
     binary_round prec emax false M E = S754_finite false q (E + 2)).
Proof.
  intros HM HE.
  assert (Hf : fexp prec emax (Z.pos (digits2_pos M) + E) = E + 2).
  { rewrite fexp_eq, (digits_26 M) by lia. lia. }
  destruct (bra_shift2 false M E Hf ltac:(lia)) as (q & Hq & Hr).
  exists q. split; [done|]. intros Hq' Hmax.
  rewrite binary_round_noshl by lia. apply Hr; [|done].
  rewrite fexp_eq, (digits_24 q); [lia|]. unfold rne2 in Hq. lia.
Qed.

Lemma four_eq : of_int 4 = S754_finite false 8388608 (-21).
Proof. reflexivity. Qed.

Lemma mul_8388608 m :
  (8388608 * m = m~0~0~0~0~0~0~0~0~0~0~0~0~0~0~0~0~0~0~0~0~0~0~0)%positive.
Proof. reflexivity. Qed.

Ltac mul4_shift n :=
  rewrite four_eq; unfold mul, SFmul; cbn [xorb]; rewrite mul_8388608;
  unfold binary_round_aux, shr_fexp; cbn [Zdigits2 digits2_pos shr_record_of_loc];
  rewrite !Pos2Z.inj_succ;
  match goal with
  | |- context [shr ?r ?E ?x] => replace x with n by (rewrite fexp_eq; lia)
  end;
  cbn [shr SpecFloat.iter_pos shr_1 orb shr_m loc_of_shr_record round_nearest_even
       Zdigits2 digits2_pos shr_record_of_loc];
  rewrite ?Pos2Z.inj_succ;
  match goal with
  | |- context [shr ?r ?E ?x] => replace x with 0 by (rewrite fexp_eq; lia)
  end;
  cbn [shr shr_m];
  match goal with
  | |- context [?e <=? emax - prec] =>
      replace (e <=? emax - prec) with true by (unfold emax, prec; lia)
  end.

Lemma mul4_normal m e :
  8388608 <= Z.pos m < 16777216 -> -149 <= e -> e + 2 <= 104 ->
  mul (of_int 4) (S754_finite false m e) = S754_finite false m (e + 2).
Proof.
  intros Hm He Hmax. pose proof (digits_24 m Hm) as Hd.
  mul4_shift 23. f_equal. lia.
Qed.

Lemma mul4_small m :
  Z.pos m < 4194304 ->
  mul (of_int 4) (S754_finite false m (-149)) = S754_finite false (m~0~0)%positive (-149).
Proof.
  intros Hm.
  assert (Hd : Z.pos (digits2_pos m) <= 22).
  { apply digits_le; [lia|]. by change (2 ^ 22) with 4194304. }
  mul4_shift 21. reflexivity.
Qed.

Lemma mul4_subnormal m :
  4194304 <= Z.pos m < 8388608 ->
  mul (of_int 4) (S754_finite false m (-149)) = S754_finite false (m~0)%positive (-148).
Proof.
  intros Hm.
  assert (Hd : Z.pos (digits2_pos m) = 23).
  { apply digits_eq; [|lia]. change (2 ^ (23 - 1)) with 4194304.
    change (2 ^ 23) with 8388608. lia. }
  mul4_shift 22. reflexivity.
Qed.

Ltac rne_lia :=
  unfold rne1, rne2, Z.Even in *;
  repeat match goal with
         | H : _ \/ _ |- _ => destruct H
         | H : _ /\ _ |- _ => destruct H
         | H : exists _, _ |- _ => destruct H
         end;
  lia.

(** Adding a canonical positive float to itself three times in a row gives
    four times the float, exactly. *)
Lemma sum4_eq_mul4 m e :
  canonical_mantissa prec emax m e = true -> e + 2 <= 104 ->
  let k := S754_finite false m e in
  exists m' e', add (add (add k k) k) k = S754_finite false m' e' /\
                mul (of_int 4) k = S754_finite false m' e'.
Proof.
  intros Hc Hmax k. subst k.
  destruct (canonical_cases m e Hc) as [[Hm He]|[Hm ->]].
  - (* normal *)
    exists m, (e + 2). split; [|by apply mul4_normal].
    rewrite add_exp0.
    destruct (round_1 (m + m) e ltac:(lia) ltac:(lia)) as (q2 & Hq2 & Hr); rewrite Hr; [| rne_lia | lia]; clear Hr.
    assert (q2 = m) as -> by rne_lia. clear Hq2.
    rewrite add_exp1.
    destruct (Z.lt_ge_cases (Z.pos (m~0 + m)) 33554432) as [H3|H3].
    + destruct (round_1 (m~0 + m) e ltac:(lia) ltac:(lia)) as (q3 & Hq3 & Hr); rewrite Hr; [| rne_lia | lia]; clear Hr.
      rewrite add_exp1.
      destruct (round_2 (q3~0 + m) e) as (q4 & Hq4 & Hr); [rne_lia | lia |]; rewrite Hr; [| rne_lia | lia]; clear Hr.
      f_equal. rne_lia.
    + destruct (round_2 (m~0 + m) e ltac:(lia) ltac:(lia)) as (q3 & Hq3 & Hr); rewrite Hr; [| rne_lia | lia]; clear Hr.
      rewrite add_exp2.
      destruct (round_2 (q3~0~0 + m) e) as (q4 & Hq4 & Hr); [rne_lia | lia |]; rewrite Hr; [| rne_lia | lia]; clear Hr.
      f_equal. rne_lia.
  - (* subnormal *)
    rewrite add_exp0, round_exact by lia.
    rewrite add_exp0.
    destruct (Z.lt_ge_cases (Z.pos (m + m + m)) 16777216) as [H3|H3].
    + rewrite round_exact by lia. rewrite add_exp0.
      destruct (Z.lt_ge_cases (Z.pos (m + m + m + m)) 16777216) as [H4|H4].
      * rewrite round_exact by lia. rewrite mul4_small by lia.
        eexists _, _. split; [|reflexivity]. f_equal. lia.
      * destruct (round_1 (m + m + m + m) (-149) ltac:(lia) ltac:(lia)) as (q4 & Hq4 & Hr); rewrite Hr; [| rne_lia | lia]; clear Hr.
        rewrite mul4_subnormal by lia.
        eexists _, _. split; [|reflexivity]. f_equal. rne_lia.
    + destruct (round_1 (m + m + m) (-149) ltac:(lia) ltac:(lia)) as (q3 & Hq3 & Hr); rewrite Hr; [| rne_lia | lia]; clear Hr.
      rewrite add_exp1.
      destruct (round_1 (q3~0 + m) (-149)) as (q4 & Hq4 & Hr); [rne_lia | lia |]; rewrite Hr; [| rne_lia | lia]; clear Hr.
      rewrite mul4_subnormal by lia.
      eexists _, _. split; [|reflexivity]. f_equal. rne_lia.
Qed.



Lemma same_zero x : same x zero = is_zero x.
Proof. by destruct x as [[]|[]| |[] ? ?]. Qed.

Lemma same_finite x s m e :
  same x (S754_finite s m e) = true -> x = S754_finite s m e.
Proof.
  unfold same, eqb, SFeqb, SFcompare.
  destruct x as [[]|[]| |[] mx ex], s; try done;
    destruct (Z.compare_spec ex e); try done;
    change (Pos.compare_cont Eq) with Pos.compare;
    destruct (Pos.compare_spec mx m); try done; by subst.
Qed.

Lemma same_refl_finite s m e : same (S754_finite s m e) (S754_finite s m e) = true.
Proof.
  unfold same, eqb, SFeqb, SFcompare. rewrite Z.compare_refl.
  change (Pos.compare_cont Eq) with Pos.compare. rewrite Pos.compare_refl. by destruct s.
Qed.

(** Floats equal to a common third float are equal. *)
Lemma same_common x y z : same x z = true -> same y z = true -> same x y = true.
Proof.
  destruct z as [sz|sz| |sz mz ez].
  - by destruct x as [[]|[]| |[] ? ?], y as [[]|[]| |[] ? ?], sz.
  - by destruct x as [[]|[]| |[] ? ?], y as [[]|[]| |[] ? ?], sz.
  - by destruct x as [[]|[]| |[] ? ?].
  - intros ->%same_finite ->%same_finite. apply same_refl_finite.
Qed.

Lemma same_zero_cases x s : same x (S754_zero s) = true -> is_zero x = true.
Proof. by destruct x as [[]|[]| |[] ? ?], s. Qed.

Lemma leb_one_exp m e : leb (S754_finite false m e) one = true -> e <= -23.
Proof.
  change one with (S754_finite false 8388608 (-23)).
  unfold leb, SFleb. cbn [SFcompare]. destruct (Z.compare_spec e (-23)); try done; lia.
Qed.

(** The Laplacian of a flat neighbourhood is a zero. *)
Lemma flat_laplacian k a b c d x :
  valid k = true -> leb zero k = true -> leb k one = true ->
  same a k = true -> same b k = true -> same c k = true -> same d k = true ->
  same x k = true ->
  is_zero (sub (add (add (add a b) c) d) (mul (of_int 4) x)) = true.
Proof.
  intros Hv H0 H1 Ha Hb Hc Hd Hx.
  destruct k as [s|[]| |[] m e]; try done.
  - apply same_zero_cases in Ha, Hb, Hc, Hd, Hx.
    destruct a as [[]| | |]; try done; destruct b as [[]| | |]; try done;
      destruct c as [[]| | |]; try done; destruct d as [[]| | |]; try done;
      destruct x as [[]| | |]; try done.
  - apply same_finite in Ha, Hb, Hc, Hd, Hx. subst.
    unfold valid, valid_binary, bounded in Hv. apply andb_true_iff in Hv as [Hcan _].
    apply leb_one_exp in H1.
    destruct (sum4_eq_mul4 m e Hcan ltac:(lia)) as (m' & e' & -> & ->).
    by rewrite sub_self.
Qed.

(** The velocity of a flat neighbourhood at rest stays a zero. *)
Lemma flat_velocity wss dt f v L :
  is_finite wss = true -> is_finite dt = true -> is_finite f = true ->
  is_zero v = true -> is_zero L = true ->
  is_zero (mul (add v (mul (mul wss L) dt)) f) = true.
Proof.
  intros Hw Hdt Hf Hv HL.
  destruct v as [[]| | |]; try done; destruct L as [[]| | |]; try done;
    destruct wss as [[]| | |[] ? ?]; try done;
    destruct dt as [[]| | |[] ? ?]; try done;
    destruct f as [[]| | |[] ? ?]; try done.
Qed.

Lemma add_finite_zero s m e sz : add (S754_finite s m e) (S754_zero sz) = S754_finite s m e.
Proof. reflexivity. Qed.

Lemma fmaxf_zero_pos m e : fmaxf zero (S754_finite false m e) = S754_finite false m e.
Proof. reflexivity. Qed.

Lemma one_eq : one = S754_finite false 8388608 (-23).
Proof. reflexivity. Qed.

Lemma fminf_one_finite s m e :
  fminf one (S754_finite s m e) =
  if ltb (S754_finite s m e) one then S754_finite s m e else one.
Proof. rewrite one_eq. reflexivity. Qed.

(** A positive float that is not below [1.0f] and not above it is [1.0f]. *)
Lemma not_ltb_leb_one m e :
  leb (S754_finite false m e) one = true -> ltb (S754_finite false m e) one = false ->
  S754_finite false m e = one.
Proof.
  rewrite one_eq. unfold leb, ltb, SFleb, SFltb. cbn [SFcompare].
  destruct (e ?= -23) eqn:He; try discriminate.
  destruct (PosDef.Pos.compare_cont Eq m 8388608) eqn:Hm; try discriminate.
  intros _ _. apply Z.compare_eq in He. apply Pos.compare_eq in Hm. by subst.
Qed.

(** The height of a flat neighbourhood at rest stays what it is. *)
Lemma flat_height k x v dt :
  leb zero k = true -> leb k one = true ->
  same x k = true -> is_zero v = true -> is_finite dt = true ->
  same (clamp01 (add x (mul v dt))) k = true.
Proof.
  intros H0 H1 Hx Hv Hdt.
  assert (Hz : is_zero (mul v dt) = true).
  { destruct v as [[]| | |]; try done; by destruct dt as [[]| | |[] ? ?]. }
  destruct (mul v dt) as [sz| | |]; try done. clear Hz Hv Hdt.
  destruct k as [s|[]| |[] m e]; try done.
  - apply same_zero_cases in Hx.
    destruct x as [[]| | |]; try done; by destruct sz, s.
  - apply same_finite in Hx. subst x.
    rewrite add_finite_zero. unfold clamp01. rewrite fmaxf_zero_pos, fminf_one_finite.
    destruct (ltb (S754_finite false m e) one) eqn:E; [apply same_refl_finite|].
    rewrite <- (not_ltb_leb_one m e H1 E). apply same_refl_finite.
Qed.

Lemma flat_spec k g :
  flat k g = true <->
  forall r c, in_domain (WIDTH g) (HEIGHT g) r c -> flat_cell k g r c = true.
Proof.
  unfold flat. rewrite forallb_forall. split.
  - intros Hf r c [Hr Hc].
    assert (Hin : In r (seqZ 0 (HEIGHT g))) by (apply list_elem_of_In, elem_of_seqZ; lia).
    specialize (Hf r Hin). rewrite forallb_forall in Hf. apply Hf.
    apply list_elem_of_In, elem_of_seqZ. lia.
  - intros Hf r Hr%list_elem_of_In%elem_of_seqZ. apply forallb_forall.
    intros c Hc%list_elem_of_In%elem_of_seqZ. apply Hf. unfold in_domain. lia.
Qed.

(** In a flat grid a cell that is not an obstacle holds the level [k] and
    does not move. *)
Lemma flat_water k g r c :
  flat k g = true -> in_domain (WIDTH g) (HEIGHT g) r c -> is_obstacle g r c = false ->
  same (get2 (h g) r c) k = true /\ is_zero (get2 (vel g) r c) = true.
Proof.
  intros Hf Hd Ho. pose proof (proj1 (flat_spec k g) Hf r c Hd) as Hc.
  unfold flat_cell in Hc. rewrite Ho in Hc.
  destruct (border _ _ r c); [done|].
  cbn [negb andb] in Hc. apply andb_true_iff in Hc as [Hh Hv].
  by rewrite same_zero in Hv.
Qed.

Lemma flat_neighbours k g r c :
  flat k g = true -> in_domain (WIDTH g) (HEIGHT g) r c -> is_obstacle g r c = false ->
  same (h_up g r c) k = true /\ same (h_down g r c) k = true /\
  same (h_left g r c) k = true /\ same (h_right g r c) k = true.
Proof.
  intros Hf Hd Ho. pose proof Hd as [Hr Hc].
  destruct (flat_water k g r c Hf Hd Ho) as [Hh _].
  unfold h_up, h_down, h_left, h_right.
  repeat split.
  - destruct ((r >? 0) && _) eqn:E; [|done].
    apply andb_true_iff in E as [E1 E2].
    apply (flat_water k g (r - 1) c Hf); [unfold in_domain; lia|].
    unfold is_obstacle. by rewrite E2.
  - destruct ((r <? HEIGHT g - 1) && _) eqn:E; [|done].
    apply andb_true_iff in E as [E1 E2].
    apply (flat_water k g (r + 1) c Hf); [unfold in_domain; lia|].
    unfold is_obstacle. by rewrite E2.
  - destruct ((c >? 0) && _) eqn:E; [|done].
    apply andb_true_iff in E as [E1 E2].
    apply (flat_water k g r (c - 1) Hf); [unfold in_domain; lia|].
    unfold is_obstacle. by rewrite E2.
  - destruct ((c <? WIDTH g - 1) && _) eqn:E; [|done].
    apply andb_true_iff in E as [E1 E2].
    apply (flat_water k g r (c + 1) Hf); [unfold in_domain; lia|].
    unfold is_obstacle. by rewrite E2.
Qed.

(** A flat grid at rest is flat and at rest after one step. *)
Lemma flat_step p k g :
  allocated g = true -> flat k g = true ->
  valid k = true -> leb zero k = true -> leb k one = true ->
  finite_params p = true ->
  flat k (simulation_step p g) = true.
Proof.
  intros Ha Hf Hv H0 H1 Hp.
  unfold finite_params in Hp. apply andb_true_iff in Hp as [[Hw Hdt]%andb_true_iff Hfac].
  destruct (simulation_step_spec p g Ha) as (EW & EH & Eo & _ & Hc).
  apply flat_spec. rewrite EW, EH. intros r c Hd.
  destruct (Hc r c Hd) as [Eh Ev].
  pose proof (proj1 (flat_spec k g) Hf r c Hd) as Hcell.
  unfold flat_cell in *. rewrite EW, EH, Eh, Ev.
  replace (is_obstacle (simulation_step p g) r c) with (is_obstacle g r c)
    by (unfold is_obstacle; by rewrite Eo).
  unfold cell_h, cell_vel.
  destruct (border (WIDTH g) (HEIGHT g) r c).
  - apply andb_true_iff in Hcell as [[-> _]%andb_true_iff _]. done.
  - apply andb_true_iff in Hcell as [[Ho _]%andb_true_iff _].
    apply negb_true_iff in Ho. rewrite Ho. cbn [negb andb].
    destruct (flat_water k g r c Hf Hd Ho) as [Hh Hvel].
    destruct (flat_neighbours k g r c Hf Hd Ho) as (Hu & Hdn & Hl & Hr).
    assert (HL : is_zero (laplacian_h g r c) = true)
      by (by apply (flat_laplacian k)).
    assert (HV : is_zero (new_vel p g r c) = true)
      by (by apply flat_velocity).
    apply andb_true_iff. split.
    + by apply flat_height.
    + by rewrite same_zero.
Qed.

Lemma flat_run p k g n :
  allocated g = true -> flat k g = true ->
  valid k = true -> leb zero k = true -> leb k one = true ->
  finite_params p = true ->
  flat k (run p n g) = true.
Proof.
  intros Ha Hf Hv H0 H1 Hp. induction n as [|n IH]; [done|].
  rewrite run_succ. apply flat_step; try done.
  by destruct (run_frame p n g Ha) as (_ & _ & _ & ?).
Qed.

Lemma flat_cell_same k g1 g2 r c :
  WIDTH g2 = WIDTH g1 -> HEIGHT g2 = HEIGHT g1 ->
  flat_cell k g1 r c = true -> flat_cell k g2 r c = true ->
  same (get2 (h g2) r c) (get2 (h g1) r c) = true /\
  same (get2 (vel g2) r c) (get2 (vel g1) r c) = true.
Proof.
  unfold flat_cell. intros -> ->.
  destruct (border _ _ r c);
    intros [[_ Hh1]%andb_true_iff Hv1]%andb_true_iff
           [[_ Hh2]%andb_true_iff Hv2]%andb_true_iff;
    split; eauto using same_common.
Qed.

Lemma identical_eq x y : identical x y = true -> x = y.
Proof.
  destruct x as [s| s | |s m e], y as [s'|s'| |s' m' e']; try done; cbn [identical].
  - by intros ->%Bool.eqb_prop.
  - by intros ->%Bool.eqb_prop.
  - intros [[->%Bool.eqb_prop ->%Pos.eqb_eq]%andb_true_iff ->%Z.eqb_eq]%andb_true_iff. done.
Qed.

Lemma exactly_flat_spec k g :
  exactly_flat k g = true -> exact_heights k g /\ exact_vels g.
Proof.
  unfold exactly_flat. rewrite forallb_forall. intros Hf.
  assert (Hc : forall r c, in_domain (WIDTH g) (HEIGHT g) r c -> exactly_flat_cell k g r c = true).
  { intros r c [Hr Hc].
    assert (Hin : In r (seqZ 0 (HEIGHT g))) by (apply list_elem_of_In, elem_of_seqZ; lia).
    specialize (Hf r Hin). rewrite forallb_forall in Hf. apply Hf.
    apply list_elem_of_In, elem_of_seqZ. lia. }
  split; intros r c Hd; specialize (Hc r c Hd); unfold exactly_flat_cell in Hc;
    apply andb_true_iff in Hc as [Hh Hv]; by apply identical_eq.
Qed.

(** The height of a flat neighbourhood at rest keeps its bits, the level
    [-0.0f] excepted. *)
Lemma flat_height_exact k v dt :
  leb zero k = true -> leb k one = true -> k <> S754_zero true ->
  is_zero v = true -> is_finite dt = true ->
  clamp01 (add k (mul v dt)) = k.
Proof.
  intros H0 H1 Hk Hv Hdt.
  destruct k as [[]|[]| |[] m e]; try done.
  - assert (Hz : is_zero (mul v dt) = true).
    { destruct v as [[]| | |]; try done; by destruct dt as [[]| | |[] ? ?]. }
    destruct (mul v dt) as [[]| | |]; done.
  - pose proof (flat_height (S754_finite false m e) (S754_finite false m e) v dt
                  H0 H1 (same_refl_finite _ _ _) Hv Hdt) as Hs.
    by apply same_finite in Hs.
Qed.

(** The velocity [+0.0f] of a flat neighbourhood keeps its bits when the
    damping factor is not negative. *)
Lemma flat_velocity_exact wss dt f L :
  is_finite wss = true -> is_finite dt = true -> is_finite f = true ->
  signbit f = false -> is_zero L = true ->
  mul (add zero (mul (mul wss L) dt)) f = zero.
Proof.
  intros Hw Hdt Hf Hs HL.
  destruct L as [[]| | |]; try done;
    destruct wss as [[]| | |[] ? ?]; try done;
    destruct dt as [[]| | |[] ? ?]; try done;
    destruct f as [[]| | |[] ? ?]; try done.
Qed.

Lemma exact_heights_step p k g :
  allocated g = true -> flat k g = true ->
  valid k = true -> leb zero k = true -> leb k one = true ->
  finite_params p = true -> k <> S754_zero true ->
  exact_heights k g -> exact_heights k (simulation_step p g).
Proof.
  intros Ha Hf Hv H0 H1 Hp Hk Hex.
  unfold finite_params in Hp. apply andb_true_iff in Hp as [[Hw Hdt]%andb_true_iff Hfac].
  destruct (simulation_step_spec p g Ha) as (EW & EH & Eo & _ & Hc).
  intros r c. rewrite EW, EH. intros Hd.
  destruct (Hc r c Hd) as [Eh _]. rewrite Eh.
  pose proof (proj1 (flat_spec k g) Hf r c Hd) as Hcell.
  specialize (Hex r c Hd).
  unfold flat_cell in Hcell. unfold cell_h.
  destruct (border (WIDTH g) (HEIGHT g) r c).
  - by apply andb_true_iff in Hcell as [[-> _]%andb_true_iff _].
  - apply andb_true_iff in Hcell as [[Ho _]%andb_true_iff _].
    apply negb_true_iff in Ho. rewrite Ho.
    destruct (flat_water k g r c Hf Hd Ho) as [Hh Hvel].
    destruct (flat_neighbours k g r c Hf Hd Ho) as (Hu & Hdn & Hl & Hr).
    assert (HL : is_zero (laplacian_h g r c) = true)
      by (by apply (flat_laplacian k)).
    assert (HV : is_zero (new_vel p g r c) = true)
      by (by apply flat_velocity).
    unfold new_h. rewrite Hex. by apply flat_height_exact.
Qed.

Lemma exact_vels_step p k g :
  allocated g = true -> flat k g = true ->
  valid k = true -> leb zero k = true -> leb k one = true ->
  finite_params p = true ->
  signbit (sub one (mul (G_DAMPING p) (G_DT p))) = false ->
  exact_vels g -> exact_vels (simulation_step p g).
Proof.
  intros Ha Hf Hv H0 H1 Hp Hs Hex.
  unfold finite_params in Hp. apply andb_true_iff in Hp as [[Hw Hdt]%andb_true_iff Hfac].
  destruct (simulation_step_spec p g Ha) as (EW & EH & Eo & _ & Hc).
  intros r c. rewrite EW, EH. intros Hd.
  destruct (Hc r c Hd) as [_ Ev]. rewrite Ev.
  specialize (Hex r c Hd). unfold cell_vel.
  destruct (is_obstacle g r c) eqn:Ho; [done|].
  destruct (flat_neighbours k g r c Hf Hd Ho) as (Hu & Hdn & Hl & Hr).
  destruct (flat_water k g r c Hf Hd Ho) as [Hh _].
  assert (HL : is_zero (laplacian_h g r c) = true)
    by (by apply (flat_laplacian k)).
  unfold new_vel. rewrite Hex. by apply flat_velocity_exact.
Qed.

Lemma exact_heights_run p k g n :
  allocated g = true -> flat k g = true ->
  valid k = true -> leb zero k = true -> leb k one = true ->
  finite_params p = true -> k <> S754_zero true ->
  exact_heights k g -> exact_heights k (run p n g).
Proof.
  intros Ha Hf Hv H0 H1 Hp Hk Hex. induction n as [|n IH]; [done|].
  rewrite run_succ. apply exact_heights_step; try done.
  - by destruct (run_frame p n g Ha) as (_ & _ & _ & ?).
  - by apply flat_run.
Qed.

Lemma exact_vels_run p k g n :
  allocated g = true -> flat k g = true ->
  valid k = true -> leb zero k = true -> leb k one = true ->
  finite_params p = true ->
  signbit (sub one (mul (G_DAMPING p) (G_DT p))) = false ->
  exact_vels g -> exact_vels (run p n g).
Proof.
  intros Ha Hf Hv H0 H1 Hp Hs Hex. induction n as [|n IH]; [done|].
  rewrite run_succ. apply (exact_vels_step p k); try done.
  - by destruct (run_frame p n g Ha) as (_ & _ & _ & ?).
  - by apply flat_run.
Qed.

(* ===================================================================== *)
(** * The claims of the specification *)
(* ===================================================================== *)

(** C1. For a cell of the domain that is not an obstacle, one step leaves
    the velocity [(v + waveSpeedSq * L * dt) * (1 - damping * dt)] and the
    height [h + v' * dt] clamped to [[0, 1]], where the Laplacian [L] takes
    a neighbour's current height when the neighbour exists and is not an
    obstacle and the centre's own current height otherwise; every operand is
    read in the state before the step. *)
Theorem C1_step_formula p g r c :
  allocated g = true ->
  in_domain (WIDTH g) (HEIGHT g) r c ->
  is_obstacle g r c = false ->
  get2 (vel (simulation_step p g)) r c = spec_vel p g r c /\
  get2 (h (simulation_step p g)) r c = spec_h p g r c.
Proof. apply step_formula. Qed.

Lemma C1_step_formula_witness :
  let p := tilted_start in
  let g := initialize_simulation p (allocate_grids 6 5) in
  allocated g = true /\ in_domain (WIDTH g) (HEIGHT g) 2 1 /\ is_obstacle g 2 1 = false /\
  get2 (vel (simulation_step p g)) 2 1 = spec_vel p g 2 1 /\
  get2 (h (simulation_step p g)) 2 1 = spec_h p g 2 1.
Proof.
  assert (Ha : allocated (initialize_simulation tilted_start (allocate_grids 6 5)) = true)
    by (vm_compute; reflexivity).
  assert (Hd : in_domain (WIDTH (initialize_simulation tilted_start (allocate_grids 6 5)))
                         (HEIGHT (initialize_simulation tilted_start (allocate_grids 6 5))) 2 1)
    by (vm_compute; repeat split; discriminate).
  assert (Ho : is_obstacle (initialize_simulation tilted_start (allocate_grids 6 5)) 2 1 = false)
    by (vm_compute; reflexivity).
  exact (conj Ha (conj Hd (conj Ho (C1_step_formula tilted_start _ 2 1 Ha Hd Ho)))).
Defined.

(** C2. With validated parameters, after the initialisation and after every
    number of simulation steps, every cell of the domain that is not an
    obstacle has a current height [h] with [0.0 <= h <= 1.0]. *)
Theorem C2_height_clamped p W H' n r c :
  validate p = None ->
  in_domain W H' r c ->
  let g := run p n (initialize_simulation p (allocate_grids W H')) in
  is_obstacle g r c = false ->
  leb zero (get2 (h g) r c) = true /\ leb (get2 (h g) r c) one = true.
Proof. intros Hv Hd g Ho. by apply reached_clamped. Qed.

Lemma C2_height_clamped_witness :
  let g := run tilted_start 3 (initialize_simulation tilted_start (allocate_grids 6 5)) in
  validate tilted_start = None /\ in_domain 6 5 2 1 /\ is_obstacle g 2 1 = false /\
  leb zero (get2 (h g) 2 1) = true /\ leb (get2 (h g) 2 1) one = true.
Proof.
  assert (Hv : validate tilted_start = None) by (vm_compute; reflexivity).
  assert (Hd : in_domain 6 5 2 1) by (unfold in_domain; lia).
  assert (Ho : is_obstacle
    (run tilted_start 3 (initialize_simulation tilted_start (allocate_grids 6 5))) 2 1 = false)
    by (vm_compute; reflexivity).
  exact (conj Hv (conj Hd (conj Ho (C2_height_clamped tilted_start 6 5 3 2 1 Hv Hd Ho)))).
Defined.

(** C3. After the initialisation and after every number of simulation
    steps: the obstacle mask is the one the initialisation made; every
    border cell ([r = 0], [r = height - 1], [c = 0] or [c = width - 1]) is
    an obstacle with [h = 0] and [v = 0]; every obstacle cell has [h = 0]
    and [v = 0] (the zero is [+0.0f]). *)
Theorem C3_walls p W H' n r c :
  in_domain W H' r c ->
  let g0 := initialize_simulation p (allocate_grids W H') in
  let g := run p n g0 in
  obstacle g = obstacle g0 /\
  (border W H' r c = true ->
     is_obstacle g r c = true /\ get2 (h g) r c = zero /\ get2 (vel g) r c = zero) /\
  (is_obstacle g r c = true -> get2 (h g) r c = zero /\ get2 (vel g) r c = zero).
Proof.
  intros Hd g0 g. subst g g0.
  destruct (reached_frame p W H' n) as (_ & _ & _ & Eo & Hob).
  split; [done|]. rewrite (Hob r c Hd). split.
  - intros Hb. split; [done|]. by apply reached_walls.
  - intros Hb. by apply reached_walls.
Qed.

Lemma C3_walls_witness :
  let g0 := initialize_simulation tilted_start (allocate_grids 6 5) in
  let g := run tilted_start 2 g0 in
  in_domain 6 5 4 3 /\
  obstacle g = obstacle g0 /\
  (border 6 5 4 3 = true ->
     is_obstacle g 4 3 = true /\ get2 (h g) 4 3 = zero /\ get2 (vel g) 4 3 = zero) /\
  (is_obstacle g 4 3 = true -> get2 (h g) 4 3 = zero /\ get2 (vel g) 4 3 = zero).
Proof.
  assert (Hd : in_domain 6 5 4 3) by (unfold in_domain; lia).
  exact (conj Hd (C3_walls tilted_start 6 5 2 4 3 Hd)).
Defined.

(** C4 (as amended). A grid whose interior heights all equal one constant
    of [[0, 1]], with zero velocity everywhere and walls on the border, is a
    fixed point of the step provided the wave speed, the time step and the
    damping factor [1 - damping * dt] are finite numbers: after any number
    of steps every height and every velocity equals (for C's [==]) what it
    was.  On a grid that is flat bit for bit the heights keep their bits
    unless the constant is [-0.0f], and the velocities keep theirs when the
    damping factor is not negative. *)
Theorem C4_flat_fixed_point p g k n r c :
  allocated g = true -> flat k g = true ->
  valid k = true -> leb zero k = true -> leb k one = true ->
  finite_params p = true ->
  in_domain (WIDTH g) (HEIGHT g) r c ->
  same (get2 (h (run p n g)) r c) (get2 (h g) r c) = true /\
  same (get2 (vel (run p n g)) r c) (get2 (vel g) r c) = true /\
  (exactly_flat k g = true -> k <> S754_zero true ->
     get2 (h (run p n g)) r c = get2 (h g) r c) /\
  (exactly_flat k g = true ->
     signbit (sub one (mul (G_DAMPING p) (G_DT p))) = false ->
     get2 (vel (run p n g)) r c = get2 (vel g) r c).
Proof.
  intros Ha Hf Hv H0 H1 Hp Hd.
  pose proof (flat_run p k g n Ha Hf Hv H0 H1 Hp) as Hfn.
  destruct (run_frame p n g Ha) as (EW & EH & _ & _).
  assert (Hdn : in_domain (WIDTH (run p n g)) (HEIGHT (run p n g)) r c)
    by (by rewrite EW, EH).
  destruct (flat_cell_same k g (run p n g) r c EW EH) as [Hh Hvel].
  { by apply flat_spec. }
  { by apply flat_spec. }
  split; [done|]. split; [done|]. split.
  - intros [Hxh _]%exactly_flat_spec Hk.
    pose proof (exact_heights_run p k g n Ha Hf Hv H0 H1 Hp Hk Hxh r c Hdn) as E.
    rewrite E, EW, EH. symmetry. by apply Hxh.
  - intros [_ Hxv]%exactly_flat_spec Hs.
    pose proof (exact_vels_run p k g n Ha Hf Hv H0 H1 Hp Hs Hxv r c Hdn) as E.
    rewrite E. symmetry. by apply Hxv.
Qed.

Lemma C4_flat_fixed_point_witness :
  allocated calm_grid = true /\ flat (lit 5 10) calm_grid = true /\
  valid (lit 5 10) = true /\ leb zero (lit 5 10) = true /\ leb (lit 5 10) one = true /\
  finite_params tilted_start = true /\
  in_domain (WIDTH calm_grid) (HEIGHT calm_grid) 2 3 /\
  exactly_flat (lit 5 10) calm_grid = true /\ lit 5 10 <> S754_zero true /\
  signbit (sub one (mul (G_DAMPING tilted_start) (G_DT tilted_start))) = false /\
  same (get2 (h (run tilted_start 4 calm_grid)) 2 3) (get2 (h calm_grid) 2 3) = true /\
  same (get2 (vel (run tilted_start 4 calm_grid)) 2 3) (get2 (vel calm_grid) 2 3) = true /\
  (exactly_flat (lit 5 10) calm_grid = true -> lit 5 10 <> S754_zero true ->
     get2 (h (run tilted_start 4 calm_grid)) 2 3 = get2 (h calm_grid) 2 3) /\
  (exactly_flat (lit 5 10) calm_grid = true ->
     signbit (sub one (mul (G_DAMPING tilted_start) (G_DT tilted_start))) = false ->
     get2 (vel (run tilted_start 4 calm_grid)) 2 3 = get2 (vel calm_grid) 2 3).
Proof.
  assert (Ha : allocated calm_grid = true) by (vm_compute; reflexivity).
  assert (Hf : flat (lit 5 10) calm_grid = true) by (vm_compute; reflexivity).
  assert (Hv : valid (lit 5 10) = true) by (vm_compute; reflexivity).
  assert (H0 : leb zero (lit 5 10) = true) by (vm_compute; reflexivity).
  assert (H1 : leb (lit 5 10) one = true) by (vm_compute; reflexivity).
  assert (Hp : finite_params tilted_start = true) by (vm_compute; reflexivity).
  assert (Hd : in_domain (WIDTH calm_grid) (HEIGHT calm_grid) 2 3)
    by (vm_compute; repeat split; discriminate).
  assert (Hx : exactly_flat (lit 5 10) calm_grid = true) by (vm_compute; reflexivity).
  assert (Hk : lit 5 10 <> S754_zero true) by (vm_compute; discriminate).
  assert (Hs : signbit (sub one (mul (G_DAMPING tilted_start) (G_DT tilted_start))) = false)
    by (vm_compute; reflexivity).
  exact (conj Ha (conj Hf (conj Hv (conj H0 (conj H1 (conj Hp (conj Hd (conj Hx (conj Hk
          (conj Hs
          (C4_flat_fixed_point tilted_start calm_grid (lit 5 10) 4 2 3
             Ha Hf Hv H0 H1 Hp Hd))))))))))).
Defined.

(** C4, the claim as written fails.  The validation accepts [--damping inf]
    and raises no stability warning, and one step takes the flat
    [calm_grid] from the level [0.5] to [0] with a velocity that is not a
    number; the same happens with finite parameters whose product
    [damping * dt] overflows.  With the finite factor [1 - 10 * 0.2] the
    fields stay equal for [==] while the velocity [+0.0f] becomes
    [-0.0f]. *)
Lemma C4_counterexample :
  allocated calm_grid = true /\ flat (lit 5 10) calm_grid = true /\
  exactly_flat (lit 5 10) calm_grid = true /\
  get2 (h calm_grid) 2 3 = lit 5 10 /\ get2 (vel calm_grid) 2 3 = zero /\
  (validate endless_damping = None /\ unstable endless_damping = false /\
   get2 (h (run endless_damping 1 calm_grid)) 2 3 = zero /\
   get2 (vel (run endless_damping 1 calm_grid)) 2 3 = S754_nan /\
   same (get2 (h (run endless_damping 1 calm_grid)) 2 3) (get2 (h calm_grid) 2 3) = false /\
   same (get2 (vel (run endless_damping 1 calm_grid)) 2 3) (get2 (vel calm_grid) 2 3) = false) /\
  (validate overflowing_damping = None /\
   is_finite (G_WAVE_SPEED_SQ overflowing_damping) = true /\
   is_finite (G_DT overflowing_damping) = true /\
   is_finite (G_DAMPING overflowing_damping) = true /\
   same (get2 (h (run overflowing_damping 1 calm_grid)) 2 3) (get2 (h calm_grid) 2 3) = false /\
   same (get2 (vel (run overflowing_damping 1 calm_grid)) 2 3) (get2 (vel calm_grid) 2 3) = false) /\
  (validate strong_damping = None /\ finite_params strong_damping = true /\
   get2 (vel (run strong_damping 1 calm_grid)) 2 3 = S754_zero true /\
   identical (get2 (vel (run strong_damping 1 calm_grid)) 2 3) (get2 (vel calm_grid) 2 3) = false).
Proof. vm_compute. repeat split; reflexivity. Qed.

(** C5 (as amended). The initialisation sets the velocity of every interior
    cell to [0] and its height to
    [clamp01 (initialLevel + initialTilt * ((c / (width - 1)) - 0.5) * 2)],
    the centre cell excepted when the central disturbance is applied.  For
    a width of [11] with [initialTilt = 0.1f] and [initialLevel = 0.5f] the
    tilt effect is [-0.1f] at column [0] and [+0.1f] at column [10], and in
    every interior row [h[r][1]] is [0.42f] and [h[r][9]] is [0.58f]. *)
Theorem C5_initial_heights p W H' r c :
  in_domain W H' r c -> border W H' r c = false ->
  let g := initialize_simulation p (allocate_grids W H') in
  get2 (vel g) r c = zero /\
  (disturbed p W H' && (r =? H' ÷ 2) && (c =? W ÷ 2) = false ->
     get2 (h g) r c = clamp01 (add (G_INITIAL_WATER_LEVEL p) (tilt_effect p W c))) /\
  (W = 11 -> G_INITIAL_TILT p = lit 1 10 -> G_INITIAL_WATER_LEVEL p = lit 5 10 ->
     tilt_effect p W 0 = SFopp (lit 1 10) /\ tilt_effect p W 10 = lit 1 10 /\
     (c = 1 -> get2 (h g) r c = lit 42 100) /\
     (c = 9 -> get2 (h g) r c = lit 58 100)).
Proof.
  intros Hd Hb g. subst g.
  destruct (initialize_simulation_spec p W H') as (_ & _ & _ & Hc).
  destruct (Hc r c Hd) as (_ & Ev & Eh).
  split; [done|]. split.
  - intros E. rewrite Eh, E. unfold init_h. by rewrite Hb.
  - intros -> Ht Hl.
    assert (Hnd : disturbed p 11 H' = false).
    { unfold disturbed. rewrite Ht. reflexivity. }
    rewrite Eh, Hnd. cbn [andb]. unfold init_h. rewrite Hb.
    unfold tilt_effect. rewrite Ht, Hl.
    split; [reflexivity|]. split; [reflexivity|].
    split; intros ->; vm_compute; reflexivity.
Qed.

Lemma C5_initial_heights_witness :
  let g := initialize_simulation tilted_start (allocate_grids 11 7) in
  in_domain 11 7 3 1 /\ border 11 7 3 1 = false /\
  get2 (vel g) 3 1 = zero /\
  (disturbed tilted_start 11 7 && (3 =? 7 ÷ 2) && (1 =? 11 ÷ 2) = false ->
     get2 (h g) 3 1 =
     clamp01 (add (G_INITIAL_WATER_LEVEL tilted_start) (tilt_effect tilted_start 11 1))) /\
  (11 = 11 -> G_INITIAL_TILT tilted_start = lit 1 10 ->
   G_INITIAL_WATER_LEVEL tilted_start = lit 5 10 ->
     tilt_effect tilted_start 11 0 = SFopp (lit 1 10) /\
     tilt_effect tilted_start 11 10 = lit 1 10 /\
     (1 = 1 -> get2 (h g) 3 1 = lit 42 100) /\
     (1 = 9 -> get2 (h g) 3 1 = lit 58 100)).
Proof.
  assert (Hd : in_domain 11 7 3 1) by (unfold in_domain; lia).
  assert (Hb : border 11 7 3 1 = false) by reflexivity.
  exact (conj Hd (conj Hb (C5_initial_heights tilted_start 11 7 3 1 Hd Hb))).
Defined.

(** C5, the claim as written fails: with width [11], [initialTilt = 0.1f]
    and [initialLevel = 0.5f] the height [h[r][1]] is [0.42f], more than
    [0.019] away from [0.4], and [h[r][9]] is [0.58f], more than [0.019]
    away from [0.6]. *)
Lemma C5_counterexample :
  let g := initialize_simulation tilted_start (allocate_grids 11 7) in
  G_INITIAL_TILT tilted_start = lit 1 10 /\ G_INITIAL_WATER_LEVEL tilted_start = lit 5 10 /\
  get2 (h g) 3 1 = lit 42 100 /\
  ltb (lit 19 1000) (fabsf (sub (get2 (h g) 3 1) (lit 4 10))) = true /\
  get2 (h g) 3 9 = lit 58 100 /\
  ltb (lit 19 1000) (fabsf (sub (get2 (h g) 3 9) (lit 6 10))) = true.
Proof. vm_compute. repeat split; reflexivity. Qed.

(** C6. If [|initialTilt| < 0.001] and [width > 2] and [height > 2], the
    cell [(height / 2, width / 2)] is not an obstacle and the initialisation
    sets its height to [min (1.0, initialLevel + 0.4)]; with
    [initialTilt = 0] and [initialLevel = 0.5f] on the domain of width [21]
    and height [11], the cell [(5, 10)] has the height [0.9f] and every
    other interior cell the height [0.5]. *)
Theorem C6_central_disturbance p W H' :
  ltb (fabsf (G_INITIAL_TILT p)) (lit 1 1000) = true -> W > 2 -> H' > 2 ->
  let g := initialize_simulation p (allocate_grids W H') in
  is_obstacle g (H' ÷ 2) (W ÷ 2) = false /\
  get2 (h g) (H' ÷ 2) (W ÷ 2) = fminf one (add (G_INITIAL_WATER_LEVEL p) (lit 4 10)) /\
  (G_INITIAL_TILT p = zero -> G_INITIAL_WATER_LEVEL p = lit 5 10 -> W = 21 -> H' = 11 ->
     get2 (h g) 5 10 = lit 9 10 /\
     forall r c, in_domain W H' r c -> border W H' r c = false -> (r, c) <> (5, 10) ->
       get2 (h g) r c = lit 5 10).
Proof.
  intros Ht HW HH g. subst g.
  destruct (initialize_simulation_spec p W H') as (_ & _ & _ & Hc).
  destruct (centre_interior W H' HH HW) as [Hdc Hbc].
  assert (Hdis : disturbed p W H' = true).
  { unfold disturbed. rewrite Ht. cbn [andb]. apply andb_true_iff. lia. }
  split; [|split].
  - destruct (Hc _ _ Hdc) as (Eo & _). unfold is_obstacle. rewrite Eo.
    by rewrite is_obstacle_init.
  - destruct (Hc _ _ Hdc) as (_ & _ & ->). by rewrite Hdis, !Z.eqb_refl.
  - intros Ht0 Hl -> ->. split.
    + destruct (Hc 5 10 Hdc) as (_ & _ & ->). rewrite Hdis, Hl. reflexivity.
    + intros r c Hd Hb Hne. destruct (Hc r c Hd) as (_ & _ & ->).
      assert (E : disturbed p 21 11 && (r =? 11 ÷ 2) && (c =? 21 ÷ 2) = false).
      { rewrite <- andb_assoc. apply andb_false_iff. right. apply andb_false_iff.
        change (11 ÷ 2) with 5. change (21 ÷ 2) with 10.
        destruct (Z.eqb_spec r 5), (Z.eqb_spec c 10); try tauto. congruence. }
      rewrite E. unfold init_h. rewrite Hb.
      unfold tilt_effect. rewrite Ht0, Hl.
      assert (Hcs : 1 <= c <= 19).
      { destruct Hd as [_ ?]. unfold border in Hb. rewrite !orb_false_iff in Hb. lia. }
      clear -Hcs.
      assert (Hl : In c (seqZ 1 19)).
      { apply list_elem_of_In, elem_of_seqZ. lia. }
      vm_compute in Hl.
      repeat (destruct Hl as [<-|Hl]; [vm_compute; reflexivity|]). destruct Hl.
Qed.

Lemma C6_central_disturbance_witness :
  let g := initialize_simulation flat_start (allocate_grids 21 11) in
  ltb (fabsf (G_INITIAL_TILT flat_start)) (lit 1 1000) = true /\ 21 > 2 /\ 11 > 2 /\
  is_obstacle g (11 ÷ 2) (21 ÷ 2) = false /\
  get2 (h g) (11 ÷ 2) (21 ÷ 2) =
    fminf one (add (G_INITIAL_WATER_LEVEL flat_start) (lit 4 10)) /\
  (G_INITIAL_TILT flat_start = zero -> G_INITIAL_WATER_LEVEL flat_start = lit 5 10 ->
   21 = 21 -> 11 = 11 ->
     get2 (h g) 5 10 = lit 9 10 /\
     forall r c, in_domain 21 11 r c -> border 21 11 r c = false -> (r, c) <> (5, 10) ->
       get2 (h g) r c = lit 5 10).
Proof.
  assert (Ht : ltb (fabsf (G_INITIAL_TILT flat_start)) (lit 1 1000) = true) by reflexivity.
  assert (HW : 21 > 2) by lia.
  assert (HH : 11 > 2) by lia.
  exact (conj Ht (conj HW (conj HH (C6_central_disturbance flat_start 21 11 Ht HW HH)))).
Defined.

(** C7. [height_to_char] returns ['@'] for heights [> 0.80], ['#'] for
    [> 0.65], ['*'] for [> 0.50], ['='] for [> 0.35], ['-'] for [> 0.20],
    ['.'] for [> 0.05] (each when the larger thresholds are not exceeded)
    and a space otherwise; at [0.9], [0.7], [0.55], [0.4], [0.25], [0.1] and
    [0.0] it returns ['@'], ['#'], ['*'], ['='], ['-'], ['.'] and [' ']. *)
Theorem C7_glyphs :
  (forall x,
     (gtb x (lit 80 100) = true -> height_to_char x = "@"%char) /\
     (gtb x (lit 80 100) = false -> gtb x (lit 65 100) = true -> height_to_char x = "#"%char) /\
     (gtb x (lit 65 100) = false -> gtb x (lit 50 100) = true -> height_to_char x = "*"%char) /\
     (gtb x (lit 50 100) = false -> gtb x (lit 35 100) = true -> height_to_char x = "="%char) /\
     (gtb x (lit 35 100) = false -> gtb x (lit 20 100) = true -> height_to_char x = "-"%char) /\
     (gtb x (lit 20 100) = false -> gtb x (lit 5 100) = true -> height_to_char x = "."%char) /\
     (gtb x (lit 5 100) = false -> height_to_char x = " "%char)) /\
  height_to_char (lit 9 10) = "@"%char /\
  height_to_char (lit 7 10) = "#"%char /\
  height_to_char (lit 55 100) = "*"%char /\
  height_to_char (lit 4 10) = "="%char /\
  height_to_char (lit 25 100) = "-"%char /\
  height_to_char (lit 1 10) = "."%char /\
  height_to_char zero = " "%char.
Proof.
  split; [|repeat split; reflexivity].
  intros x.
  assert (M1 : gtb x (lit 5 100) = false -> gtb x (lit 20 100) = false)
    by (by apply not_gtb_mono).
  assert (M2 : gtb x (lit 20 100) = false -> gtb x (lit 35 100) = false)
    by (by apply not_gtb_mono).
  assert (M3 : gtb x (lit 35 100) = false -> gtb x (lit 50 100) = false)
    by (by apply not_gtb_mono).
  assert (M4 : gtb x (lit 50 100) = false -> gtb x (lit 65 100) = false)
    by (by apply not_gtb_mono).
  assert (M5 : gtb x (lit 65 100) = false -> gtb x (lit 80 100) = false)
    by (by apply not_gtb_mono).
  unfold height_to_char.
  destruct (gtb x (lit 80 100)), (gtb x (lit 65 100)), (gtb x (lit 50 100)),
    (gtb x (lit 35 100)), (gtb x (lit 20 100)), (gtb x (lit 5 100));
    repeat split; intros; try done;
    repeat match goal with
           | M : ?a = ?a -> _ |- _ => specialize (M eq_refl)
           end; done.
Qed.

(** C8. The command line, read in the order of the arguments: once the
    arguments [pre] have been consumed as options with their values,
    - a help flag prints the usage and [main] returns [0];
    - an argument that is no known option prints the usage and [main]
      returns [1];
    - an option that takes a value and is the last argument prints the usage
      and [main] returns [1];
    and when all the arguments have been consumed,
    - a parameter that fails the validation ([dt <= 0], [waveSpeedSq <= 0],
      [damping < 0], level or tilt outside [[0, 1]], [sleep < 0]) makes
      [main] print one diagnostic that names a failing parameter and return
      [1], without starting the simulation;
    - otherwise the simulation starts, and a stability metric above [0.5]
      only adds the warning to the output. *)
Theorem C8_command_line `{Libc} prog pre p a rest ws :
  parse_args pre default_params = Parsed p ->
  (is_help a = true -> main (prog :: pre ++ a :: rest) ws = Exit 0 [Usage]) /\
  (recognised a = false ->
     main (prog :: pre ++ a :: rest) ws = Exit 1 [UnknownOption a; Usage]) /\
  (takes_value a = true -> main (prog :: pre ++ [a]) ws = Exit 1 [Usage]) /\
  (invalid p = true ->
     exists msg, main (prog :: pre) ws = Exit 1 [Error msg] /\ names_failure p msg) /\
  (invalid p = false ->
     exists out, main (prog :: pre) ws = Simulating p (initial_grid p ws) out /\
       (unstable p = true -> In (StabilityWarning (stability_metric p)) out)).
Proof.
  intros Hpre. repeat split.
  - intros Ha. apply main_return. rewrite (parse_args_app pre _ _ p Hpre). by apply parse_help.
  - intros Ha. apply main_return. rewrite (parse_args_app pre _ _ p Hpre). by apply parse_unknown.
  - intros Ha. apply main_return. rewrite (parse_args_app pre _ _ p Hpre). by apply parse_missing.
  - intros Hi. destruct (validate_invalid p Hi) as (msg & Hv & Hn).
    exists msg. split; [|done]. by apply (main_invalid prog pre ws p msg).
  - intros Hi. apply main_valid; [done|]. by apply validate_valid.
Qed.

Lemma C8_command_line_witness :
  let L := reads_zero in
  let pre := ["--speed_sq"; "3"; "--sleep"; "7"]%string in
  let p := set_sleep (set_speed_sq default_params zero) 0 in
  let a := "--help"%string in
  let rest := ["--dt"]%string in
  parse_args pre default_params = Parsed p /\
  (is_help a = true -> main ("cfd"%string :: pre ++ a :: rest) None = Exit 0 [Usage]) /\
  (recognised a = false ->
     main ("cfd"%string :: pre ++ a :: rest) None = Exit 1 [UnknownOption a; Usage]) /\
  (takes_value a = true -> main ("cfd"%string :: pre ++ [a]) None = Exit 1 [Usage]) /\
  (invalid p = true ->
     exists msg, main ("cfd"%string :: pre) None = Exit 1 [Error msg] /\ names_failure p msg) /\
  (invalid p = false ->
     exists out, main ("cfd"%string :: pre) None = Simulating p (initial_grid p None) out /\
       (unstable p = true -> In (StabilityWarning (stability_metric p)) out)).
Proof.
  assert (Hp : @parse_args reads_zero ["--speed_sq"; "3"; "--sleep"; "7"]%string default_params
               = Parsed (set_sleep (set_speed_sq default_params zero) 0)) by reflexivity.
  exact (conj Hp (@C8_command_line reads_zero "cfd"%string _ _ "--help"%string
                    ["--dt"]%string None Hp)).
Defined.

(** C9 (as amended). Each dimension of the detected terminal size that is
    below its minimum falls back on its own: a width below [10] becomes
    [20], a height below [5] becomes [10], and a dimension that reaches its
    minimum is kept; the domain is [20] by [10] when both are below. *)
Theorem C9_usable_size W H' :
  usable_size W H' = ((if W <? 10 then 20 else W), (if H' <? 5 then 10 else H')) /\
  (W < 10 -> H' < 5 -> usable_size W H' = (20, 10)).
Proof.
  split; [apply usable_size_spec|].
  intros HW HH. rewrite usable_size_spec.
  by destruct (Z.ltb_spec W 10), (Z.ltb_spec H' 5); try lia.
Qed.

(** C9, the claim as written fails: a terminal of [8] columns and [31] rows
    is detected as [8] by [30], below the minimum of [10] by [5], and the
    domain is [20] by [30], not [20] by [10]. *)
Lemma C9_counterexample :
  get_terminal_size (Some (8, 31)) = (8, 30) /\
  (8 <? 10) || (30 <? 5) = true /\
  usable_size 8 30 = (20, 30) /\ usable_size 8 30 <> (20, 10).
Proof. split; [reflexivity|]. split; [reflexivity|]. split; [reflexivity|discriminate]. Qed.

(** C10. A step depends on the current heights, velocities and obstacles
    only: two grids that agree on them, whatever their next buffers hold,
    have the same heights and the same velocities after one step. *)
Theorem C10_scratch_unobservable p g1 g2 :
  allocated g1 = true -> allocated g2 = true ->
  WIDTH g2 = WIDTH g1 -> HEIGHT g2 = HEIGHT g1 ->
  h g2 = h g1 -> vel g2 = vel g1 -> obstacle g2 = obstacle g1 ->
  h (simulation_step p g1) = h (simulation_step p g2) /\
  vel (simulation_step p g1) = vel (simulation_step p g2).
Proof. intros. apply step_ignores_scratch; [done | done | unfold same_input; auto]. Qed.

Lemma C10_scratch_unobservable_witness :
  let g1 := initialize_simulation tilted_start (allocate_grids 6 5) in
  let g2 := with_next_vel (with_next_h g1 (h g1)) (h g1) in
  allocated g1 = true /\ allocated g2 = true /\
  WIDTH g2 = WIDTH g1 /\ HEIGHT g2 = HEIGHT g1 /\
  h g2 = h g1 /\ vel g2 = vel g1 /\ obstacle g2 = obstacle g1 /\
  next_h g2 <> next_h g1 /\
  h (simulation_step tilted_start g1) = h (simulation_step tilted_start g2) /\
  vel (simulation_step tilted_start g1) = vel (simulation_step tilted_start g2).
Proof.
  cbv zeta.
  set (g1 := initialize_simulation tilted_start (allocate_grids 6 5)).
  set (g2 := with_next_vel (with_next_h g1 (h g1)) (h g1)).
  assert (A1 : allocated g1 = true) by (vm_compute; reflexivity).
  assert (A2 : allocated g2 = true) by (vm_compute; reflexivity).
  assert (N : next_h g2 <> next_h g1) by (vm_compute; discriminate).
  assert (E1 : WIDTH g2 = WIDTH g1) by (vm_compute; reflexivity).
  assert (E2 : HEIGHT g2 = HEIGHT g1) by (vm_compute; reflexivity).
  assert (E3 : h g2 = h g1) by (vm_compute; reflexivity).
  assert (E4 : vel g2 = vel g1) by (vm_compute; reflexivity).
  assert (E5 : obstacle g2 = obstacle g1) by (vm_compute; reflexivity).
  exact (conj A1 (conj A2 (conj E1 (conj E2 (conj E3 (conj E4 (conj E5 (conj N
          (C10_scratch_unobservable tilted_start g1 g2 A1 A2 E1 E2 E3 E4 E5))))))))).
Defined.

(* ===================================================================== *)
(** * Further properties: the frame *)
(* ===================================================================== *)

Lemma for_range_snoc {A} n (f : Z -> A) (buf : list A) :
  for_range n (fun c b => b ++ [f c]) buf = buf ++ (f <$> seqZ 0 n).
Proof.
  unfold for_range. generalize (seqZ 0 n). intros l. revert buf.
  induction l as [|x l IH]; intros buf; simpl.
  - by rewrite app_nil_r.
  - by rewrite IH, <- app_assoc.
Qed.

Lemma for_range_app {A} n (F : Z -> list A) (buf : list A) :
  for_range n (fun r b => b ++ F r) buf = buf ++ concat (F <$> seqZ 0 n).
Proof.
  unfold for_range. generalize (seqZ 0 n). intros l. revert buf.
  induction l as [|x l IH]; intros buf; simpl.
  - by rewrite app_nil_r.
  - by rewrite IH, <- app_assoc.
Qed.

Lemma display_row_glyph g r : display_row g r = glyph g r <$> seqZ 0 (WIDTH g).
Proof. reflexivity. Qed.

Lemma write_row_spec g r buf :
  write_row g r buf = buf ++ (display_row g r ++ ["010"%char]).
Proof. unfold write_row. by rewrite for_range_snoc, display_row_glyph, <- app_assoc. Qed.

Lemma write_rows g l buf :
  foldl (fun s r => write_row g r s) buf l =
  buf ++ concat ((fun r => display_row g r ++ ["010"%char]) <$> l).
Proof.
  revert buf. induction l as [|x l IH]; intros buf; simpl.
  - by rewrite app_nil_r.
  - by rewrite IH, write_row_spec, <- app_assoc.
Qed.

Lemma screen_buffer_rows g :
  screen_buffer g =
  concat ((fun row => row ++ ["010"%char]) <$> display_grid g) ++ ["000"%char].
Proof.
  unfold screen_buffer, display_grid, for_range. rewrite write_rows. simpl.
  by rewrite <- list_fmap_compose.
Qed.

Lemma length_concat_rows {A} (l : list (list A)) k :
  Forall (fun row => length row = k) l -> length (concat l) = (length l * k)%nat.
Proof.
  induction 1 as [|row l Hrow _ IH]; [done|].
  simpl. rewrite length_app, IH, Hrow. lia.
Qed.

Lemma lookup_concat_rows {A} (l : list (list A)) k i j :
  Forall (fun row => length row = k) l -> (j < k)%nat ->
  concat l !! (i * k + j)%nat = l !! i ≫= (fun row => row !! j).
Proof.
  intros Hl Hj. revert i. induction Hl as [|row l Hrow _ IH]; intros i; [done|].
  destruct i as [|i]; simpl.
  - rewrite lookup_app_l by lia. done.
  - rewrite lookup_app_r by lia. rewrite <- IH. f_equal. lia.
Qed.

Lemma display_rows_length g :
  0 <= WIDTH g ->
  Forall (fun row => length row = Z.to_nat (WIDTH g + 1))
         ((fun row => row ++ ["010"%char]) <$> display_grid g).
Proof.
  intros HW. apply Forall_fmap, Forall_forall. intros row Hrow. simpl.
  unfold display_grid in Hrow. apply list_elem_of_fmap in Hrow as (r & -> & Hr).
  rewrite length_app, display_row_glyph, length_fmap, length_seqZ. simpl. lia.
Qed.

Lemma glyph_not_nul g r c : glyph g r c <> "000"%char /\ glyph g r c <> "010"%char.
Proof.
  unfold glyph, height_to_char.
  repeat match goal with |- context [if ?b then _ else _] => destruct b end;
    split; discriminate.
Qed.

Lemma to_int_small z : - 2147483648 <= z <= 2147483647 -> to_int z = z.
Proof. intros Hz. unfold to_int. rewrite Z.mod_small by lia. lia. Qed.

(** The [int] computation wraps for sizes a terminal can report: at [65535]
    columns and [32768] rows [buffer_len] is negative. *)
Lemma buffer_len_wraps : buffer_len (mkGrid 65535 32768 [] [] [] [] []) = - 2147483647.
Proof. reflexivity. Qed.

(** X9. The frame in the buffer, when the [int] computation of [buffer_len]
    does not overflow: the characters written, the closing NUL included, are
    exactly [buffer_len] many, so the writes fill what is allocated and do
    not pass it; the content is the rows of glyphs, each closed by a line
    feed, then the NUL. *)
Theorem screen_buffer_fits g :
  0 <= WIDTH g < INT_MAX -> 0 <= HEIGHT g ->
  (WIDTH g + 1) * HEIGHT g + 1 <= INT_MAX ->
  Z.of_nat (length (screen_buffer g)) = buffer_len g /\
  screen_buffer g =
    concat ((fun row => row ++ ["010"%char]) <$> display_grid g) ++ ["000"%char].
Proof.
  unfold INT_MAX. intros HW HH Hfit. split; [|apply screen_buffer_rows].
  assert (E : buffer_len g = (WIDTH g + 1) * HEIGHT g + 1).
  { unfold buffer_len, int_add, int_mul.
    rewrite (to_int_small (WIDTH g + 1)) by lia.
    rewrite (to_int_small ((WIDTH g + 1) * HEIGHT g)) by nia.
    apply to_int_small. nia. }
  rewrite E, screen_buffer_rows, length_app.
  rewrite (length_concat_rows _ _ (display_rows_length g (proj1 HW))).
  unfold display_grid. rewrite !length_fmap, length_seqZ. simpl. nia.
Qed.

Lemma screen_buffer_fits_witness :
  0 <= WIDTH stirred_grid < INT_MAX /\ 0 <= HEIGHT stirred_grid /\
  (WIDTH stirred_grid + 1) * HEIGHT stirred_grid + 1 <= INT_MAX /\
  Z.of_nat (length (screen_buffer stirred_grid)) = buffer_len stirred_grid /\
  screen_buffer stirred_grid =
    concat ((fun row => row ++ ["010"%char]) <$> display_grid stirred_grid) ++ ["000"%char].
Proof.
  assert (HW : 0 <= WIDTH stirred_grid < INT_MAX)
    by (vm_compute; split; [discriminate | reflexivity]).
  assert (HH : 0 <= HEIGHT stirred_grid) by (vm_compute; discriminate).
  assert (Hf : (WIDTH stirred_grid + 1) * HEIGHT stirred_grid + 1 <= INT_MAX)
    by (vm_compute; discriminate).
  exact (conj HW (conj HH (conj Hf (screen_buffer_fits stirred_grid HW HH Hf)))).
Defined.

Lemma screen_lookup g r c :
  in_domain (WIDTH g) (HEIGHT g) r c ->
  screen_buffer g !! Z.to_nat (r * (WIDTH g + 1) + c) = Some (glyph g r c) /\
  screen_buffer g !! Z.to_nat (r * (WIDTH g + 1) + WIDTH g) = Some "010"%char /\
  glyph g r c <> "000"%char /\ glyph g r c <> "010"%char.
Proof.
  intros [Hr Hc]. rewrite screen_buffer_rows.
  assert (HW : 0 <= WIDTH g) by lia.
  pose proof (display_rows_length g HW) as Hlen.
  assert (Hrow : ((fun row => row ++ ["010"%char]) <$> display_grid g) !! Z.to_nat r
                 = Some (display_row g r ++ ["010"%char])).
  { unfold display_grid. rewrite !list_lookup_fmap, lookup_seqZ_lt by lia.
    simpl. do 3 f_equal. lia. }
  assert (Hrows : (Z.to_nat r <
    length ((fun row => row ++ ["010"%char]) <$> display_grid g))%nat).
  { by apply lookup_lt_Some in Hrow. }
  pose proof (length_concat_rows _ _ Hlen) as Hcat.
  assert (Hg : display_row g r !! Z.to_nat c = Some (glyph g r c)).
  { rewrite display_row_glyph, list_lookup_fmap, lookup_seqZ_lt by lia.
    simpl. do 2 f_equal. lia. }
  assert (Hdl : length (display_row g r) = Z.to_nat (WIDTH g)).
  { by rewrite display_row_glyph, length_fmap, length_seqZ. }
  split; [|split; [|apply glyph_not_nul]].
  - replace (Z.to_nat (r * (WIDTH g + 1) + c))
      with (Z.to_nat r * Z.to_nat (WIDTH g + 1) + Z.to_nat c)%nat by nia.
    rewrite lookup_app_l by (rewrite Hcat; nia).
    rewrite (lookup_concat_rows _ _ _ _ Hlen) by lia.
    rewrite Hrow. simpl. rewrite lookup_app_l by lia. done.
  - replace (Z.to_nat (r * (WIDTH g + 1) + WIDTH g))
      with (Z.to_nat r * Z.to_nat (WIDTH g + 1) + Z.to_nat (WIDTH g))%nat by nia.
    rewrite lookup_app_l by (rewrite Hcat; nia).
    rewrite (lookup_concat_rows _ _ _ _ Hlen) by lia.
    rewrite Hrow. simpl. rewrite lookup_app_r by lia.
    rewrite Hdl, Nat.sub_diag. done.
Qed.

(** X10. Where a cell is in the buffer: the glyph of [(r, c)] is the byte
    [r * (WIDTH + 1) + c], the byte after the last glyph of a row is the line
    feed, and no glyph is a NUL or a line feed, so the text that [printf]
    prints is the whole frame. *)
Theorem screen_buffer_cell g r c :
  in_domain (WIDTH g) (HEIGHT g) r c ->
  screen_buffer g !! Z.to_nat (r * (WIDTH g + 1) + c) = Some (glyph g r c) /\
  screen_buffer g !! Z.to_nat (r * (WIDTH g + 1) + WIDTH g) = Some "010"%char /\
  glyph g r c <> "000"%char /\ glyph g r c <> "010"%char.
Proof. apply screen_lookup. Qed.

Lemma screen_buffer_cell_witness :
  in_domain (WIDTH stirred_grid) (HEIGHT stirred_grid) 2 3 /\
  screen_buffer stirred_grid !! Z.to_nat (2 * (WIDTH stirred_grid + 1) + 3)
    = Some (glyph stirred_grid 2 3) /\
  screen_buffer stirred_grid !! Z.to_nat (2 * (WIDTH stirred_grid + 1) + WIDTH stirred_grid)
    = Some "010"%char /\
  glyph stirred_grid 2 3 <> "000"%char /\ glyph stirred_grid 2 3 <> "010"%char.
Proof.
  assert (Hd : in_domain (WIDTH stirred_grid) (HEIGHT stirred_grid) 2 3)
    by (vm_compute; repeat split; discriminate).
  exact (conj Hd (screen_buffer_cell stirred_grid 2 3 Hd)).
Defined.

(* ===================================================================== *)
(** * Further properties: the grid *)
(* ===================================================================== *)

Lemma step_loops_frame p g : same_input g (step_loops p g).
Proof.
  apply (for_domain_ind (same_input g) (fun _ _ _ => True)
           (WIDTH g) (HEIGHT g) (step_cell p) g).
  - unfold same_input. tauto.
  - intros r c t _ Ht. split; [|done].
    pose proof (step_cell_frame p r c t). unfold same_input in *. intuition congruence.
  - done.
Qed.

(** X1. The swap keeps the state before the step: after a step the next
    buffers hold the heights and velocities the step started from. *)
Theorem step_keeps_previous_state p g :
  next_h (simulation_step p g) = h g /\ next_vel (simulation_step p g) = vel g.
Proof.
  destruct (step_loops_frame p g) as (_ & _ & Eh & Ev & _).
  unfold simulation_step, swap_buffers. simpl. done.
Qed.

(** X2. A step keeps the dimensions, the obstacle mask and the shape of the five
    arrays, and leaves [0] in the height and the velocity of every obstacle
    cell, on the border or not, whatever they held. *)
Theorem step_keeps_the_domain p g :
  allocated g = true ->
  WIDTH (simulation_step p g) = WIDTH g /\
  HEIGHT (simulation_step p g) = HEIGHT g /\
  obstacle (simulation_step p g) = obstacle g /\
  allocated (simulation_step p g) = true /\
  forall r c, in_domain (WIDTH g) (HEIGHT g) r c -> is_obstacle g r c = true ->
    get2 (h (simulation_step p g)) r c = zero /\
    get2 (vel (simulation_step p g)) r c = zero.
Proof.
  intros Ha. destruct (simulation_step_spec p g Ha) as (EW & EH & Eo & Ha' & Hc).
  split; [done|]. split; [done|]. split; [done|]. split; [done|].
  intros r c Hd Ho. destruct (Hc r c Hd) as [-> ->].
  unfold cell_h, cell_vel. by rewrite Ho.
Qed.

Lemma step_keeps_the_domain_witness :
  allocated raised_grid = true /\
  WIDTH (simulation_step tilted_start raised_grid) = WIDTH raised_grid /\
  HEIGHT (simulation_step tilted_start raised_grid) = HEIGHT raised_grid /\
  obstacle (simulation_step tilted_start raised_grid) = obstacle raised_grid /\
  allocated (simulation_step tilted_start raised_grid) = true /\
  forall r c, in_domain (WIDTH raised_grid) (HEIGHT raised_grid) r c ->
    is_obstacle raised_grid r c = true ->
    get2 (h (simulation_step tilted_start raised_grid)) r c = zero /\
    get2 (vel (simulation_step tilted_start raised_grid)) r c = zero.
Proof.
  assert (Ha : allocated raised_grid = true) by (vm_compute; reflexivity).
  exact (conj Ha (step_keeps_the_domain tilted_start raised_grid Ha)).
Defined.

(** X3. The clamp of a step holds for every grid and every parameter, valid or
    not, finite or not: a water cell ends a step with [0 <= h <= 1], also
    when the update produced a NaN or an infinity. *)
Theorem step_clamps_whatever p g r c :
  allocated g = true -> in_domain (WIDTH g) (HEIGHT g) r c ->
  is_obstacle g r c = false ->
  leb zero (get2 (h (simulation_step p g)) r c) = true /\
  leb (get2 (h (simulation_step p g)) r c) one = true.
Proof. apply step_height_clamped. Qed.

Lemma step_clamps_whatever_witness :
  let p := set_speed_sq (set_dt tilted_start S754_nan) (S754_infinity false) in
  allocated raised_grid = true /\
  in_domain (WIDTH raised_grid) (HEIGHT raised_grid) 2 3 /\
  is_obstacle raised_grid 2 3 = false /\
  leb zero (get2 (h (simulation_step p raised_grid)) 2 3) = true /\
  leb (get2 (h (simulation_step p raised_grid)) 2 3) one = true.
Proof.
  assert (Ha : allocated raised_grid = true) by (vm_compute; reflexivity).
  assert (Hd : in_domain (WIDTH raised_grid) (HEIGHT raised_grid) 2 3)
    by (vm_compute; repeat split; discriminate).
  assert (Ho : is_obstacle raised_grid 2 3 = false) by (vm_compute; reflexivity).
  exact (conj Ha (conj Hd (conj Ho
    (step_clamps_whatever (set_speed_sq (set_dt tilted_start S754_nan) (S754_infinity false))
       raised_grid 2 3 Ha Hd Ho)))).
Defined.

(** X5. In every state the program reaches the obstacles are the border cells
    and nothing else: the interior is water at the start and stays water. *)
Theorem obstacles_are_the_border p W H' n r c :
  in_domain W H' r c ->
  is_obstacle (run p n (initialize_simulation p (allocate_grids W H'))) r c
  = border W H' r c.
Proof. intros Hd. by apply reached_frame. Qed.

Lemma obstacles_are_the_border_witness :
  in_domain 6 5 2 3 /\
  is_obstacle (run tilted_start 4 (initialize_simulation tilted_start (allocate_grids 6 5))) 2 3
  = border 6 5 2 3.
Proof.
  assert (Hd : in_domain 6 5 2 3) by (unfold in_domain; lia).
  exact (conj Hd (obstacles_are_the_border tilted_start 6 5 4 2 3 Hd)).
Defined.

(** The initialisation on any allocated grid. *)
Lemma initialize_simulation_general p g :
  allocated g = true ->
  let g' := initialize_simulation p g in
  WIDTH g' = WIDTH g /\ HEIGHT g' = HEIGHT g /\ allocated g' = true /\
  next_h g' = next_h g /\ next_vel g' = next_vel g /\
  forall r c, in_domain (WIDTH g) (HEIGHT g) r c ->
    get2 (obstacle g') r c = init_obstacle (WIDTH g) (HEIGHT g) r c /\
    get2 (vel g') r c = zero /\
    get2 (h g') r c =
      if disturbed p (WIDTH g) (HEIGHT g) && (r =? HEIGHT g ÷ 2) && (c =? WIDTH g ÷ 2)
      then fminf one (add (G_INITIAL_WATER_LEVEL p) (lit 4 10))
      else init_h p (WIDTH g) (HEIGHT g) r c.
Proof.
  intros Ha0.
  destruct (init_loops_spec p _ Ha0) as ((EW & EH & Enh & Env & Sh & Sv & So) & Hc).
  apply allocated_spec in Ha0 as (_ & _ & Snh & Snv & _).
  unfold initialize_simulation, disturb.
  set (t := init_loops p g) in *.
  rewrite EW, EH. fold (disturbed p (WIDTH g) (HEIGHT g)).
  destruct (disturbed p (WIDTH g) (HEIGHT g)) eqn:Ed; simpl.
  - unfold disturbed in Ed. rewrite !andb_true_iff in Ed. destruct Ed as [[_ HH] HW].
    destruct (centre_interior (WIDTH g) (HEIGHT g) ltac:(lia) ltac:(lia)) as [Hdc Hb].
    destruct (Hc _ _ Hdc) as (Eo & _ & _).
    rewrite Eo.
    replace (init_obstacle (WIDTH g) (HEIGHT g) (HEIGHT g ÷ 2) (WIDTH g ÷ 2)) with 0
      by (unfold init_obstacle; by rewrite Hb).
    simpl.
    split; [done|]. split; [done|]. split.
    { apply allocated_spec. simpl. rewrite EW, EH, Enh, Env.
      repeat split; try done. by apply shaped_set2. }
    split; [done|]. split; [done|].
    intros r c Hd. destruct (Hc r c Hd) as (Eo' & Eh' & Ev').
    split; [done|]. split; [done|].
    destruct (decide ((r, c) = (HEIGHT g ÷ 2, WIDTH g ÷ 2))) as [[= -> ->]|Hne].
    + rewrite !Z.eqb_refl. simpl. by apply (get2_set2_eq (WIDTH g) (HEIGHT g)).
    + destruct Hd, Hdc.
      rewrite get2_set2_ne by (done || lia).
      replace ((r =? HEIGHT g ÷ 2) && (c =? WIDTH g ÷ 2)) with false; [done|].
      symmetry. apply andb_false_iff.
      destruct (Z.eqb_spec r (HEIGHT g ÷ 2)), (Z.eqb_spec c (WIDTH g ÷ 2)); try tauto.
      congruence.
  - split; [done|]. split; [done|]. split.
    { apply allocated_spec. rewrite EW, EH, Enh, Env. done. }
    split; [done|]. split; [done|].
    intros r c Hd. destruct (Hc r c Hd) as (Eo' & Eh' & Ev'). done.
Qed.

(** X7. The initialisation overwrites the current state whole and leaves the
    next buffers alone: on two allocated grids of the same dimensions it
    gives the same heights, velocities and obstacles, whatever they held. *)
Theorem initialisation_overwrites p g1 g2 :
  allocated g1 = true -> allocated g2 = true ->
  WIDTH g2 = WIDTH g1 -> HEIGHT g2 = HEIGHT g1 ->
  h (initialize_simulation p g1) = h (initialize_simulation p g2) /\
  vel (initialize_simulation p g1) = vel (initialize_simulation p g2) /\
  obstacle (initialize_simulation p g1) = obstacle (initialize_simulation p g2) /\
  next_h (initialize_simulation p g1) = next_h g1 /\
  next_vel (initialize_simulation p g1) = next_vel g1.
Proof.
  intros Ha1 Ha2 EW EH.
  destruct (initialize_simulation_general p g1 Ha1) as (EW1 & EH1 & Ha1' & En1 & Env1 & Hc1).
  destruct (initialize_simulation_general p g2 Ha2) as (EW2 & EH2 & Ha2' & _ & _ & Hc2).
  apply allocated_spec in Ha1' as (Sh1 & Sv1 & _ & _ & So1).
  apply allocated_spec in Ha2' as (Sh2 & Sv2 & _ & _ & So2).
  rewrite EW1, EH1 in *. rewrite EW2, EH2, EW, EH in *.
  repeat split; try done.
  - apply (shaped_ext (WIDTH g1) (HEIGHT g1)); try done.
    intros r c Hd. destruct (Hc1 r c Hd) as (_ & _ & ->). by destruct (Hc2 r c Hd) as (_ & _ & ->).
  - apply (shaped_ext (WIDTH g1) (HEIGHT g1)); try done.
    intros r c Hd. destruct (Hc1 r c Hd) as (_ & -> & _). by destruct (Hc2 r c Hd) as (_ & -> & _).
  - apply (shaped_ext (WIDTH g1) (HEIGHT g1)); try done.
    intros r c Hd. destruct (Hc1 r c Hd) as (-> & _ & _). by destruct (Hc2 r c Hd) as (-> & _ & _).
Qed.

Lemma initialisation_overwrites_witness :
  allocated stirred_grid = true /\ allocated raised_grid = true /\
  WIDTH raised_grid = WIDTH stirred_grid /\ HEIGHT raised_grid = HEIGHT stirred_grid /\
  h (initialize_simulation flat_start stirred_grid)
    = h (initialize_simulation flat_start raised_grid) /\
  vel (initialize_simulation flat_start stirred_grid)
    = vel (initialize_simulation flat_start raised_grid) /\
  obstacle (initialize_simulation flat_start stirred_grid)
    = obstacle (initialize_simulation flat_start raised_grid) /\
  next_h (initialize_simulation flat_start stirred_grid) = next_h stirred_grid /\
  next_vel (initialize_simulation flat_start stirred_grid) = next_vel stirred_grid.
Proof.
  assert (A1 : allocated stirred_grid = true) by (vm_compute; reflexivity).
  assert (A2 : allocated raised_grid = true) by (vm_compute; reflexivity).
  assert (E1 : WIDTH raised_grid = WIDTH stirred_grid) by (vm_compute; reflexivity).
  assert (E2 : HEIGHT raised_grid = HEIGHT stirred_grid) by (vm_compute; reflexivity).
  exact (conj A1 (conj A2 (conj E1 (conj E2
    (initialisation_overwrites flat_start stirred_grid raised_grid A1 A2 E1 E2))))).
Defined.

(** X8. A domain too thin for an interior is all wall: with a width or a height
    of at most [2] the initialisation makes every cell an obstacle with
    [h = 0] and [v = 0], and applies no disturbance. *)
Theorem thin_domain_is_all_wall p W H' r c :
  W <= 2 \/ H' <= 2 -> in_domain W H' r c ->
  let g := initialize_simulation p (allocate_grids W H') in
  is_obstacle g r c = true /\ get2 (h g) r c = zero /\ get2 (vel g) r c = zero.
Proof.
  intros Hthin Hd g. subst g.
  destruct (initialize_simulation_spec p W H') as (_ & _ & _ & Hc).
  destruct (Hc r c Hd) as (Eo & Ev & Eh).
  assert (Hb : border W H' r c = true).
  { unfold border. destruct Hd as [? ?]. rewrite !orb_true_iff, !Z.eqb_eq. lia. }
  assert (Hnd : disturbed p W H' = false).
  { unfold disturbed. destruct Hthin.
    - replace (W >? 2) with false by lia. by rewrite andb_false_r.
    - replace (H' >? 2) with false by lia. by rewrite andb_false_r. }
  unfold is_obstacle. rewrite Eo, Eh, Hnd, is_obstacle_init. cbn [andb].
  unfold init_h. by rewrite Hb.
Qed.

Lemma thin_domain_is_all_wall_witness :
  let g := initialize_simulation flat_start (allocate_grids 2 7) in
  (2 <= 2 \/ 7 <= 2) /\ in_domain 2 7 3 1 /\
  is_obstacle g 3 1 = true /\ get2 (h g) 3 1 = zero /\ get2 (vel g) 3 1 = zero.
Proof.
  assert (Ht : 2 <= 2 \/ 7 <= 2) by (left; lia).
  assert (Hd : in_domain 2 7 3 1) by (unfold in_domain; lia).
  exact (conj Ht (conj Hd (thin_domain_is_all_wall flat_start 2 7 3 1 Ht Hd))).
Defined.

(** X4. A step is local: the new height and velocity of a cell depend on the
    cell's height, velocity and obstacle flag and on the heights and
    obstacle flags of its four neighbours, and on nothing else in the grid. *)
Theorem step_is_local p g1 g2 r c :
  allocated g1 = true -> allocated g2 = true ->
  WIDTH g2 = WIDTH g1 -> HEIGHT g2 = HEIGHT g1 ->
  in_domain (WIDTH g1) (HEIGHT g1) r c ->
  agree_at g1 g2 r c ->
  agree_at g1 g2 (r - 1) c -> agree_at g1 g2 (r + 1) c ->
  agree_at g1 g2 r (c - 1) -> agree_at g1 g2 r (c + 1) ->
  get2 (vel g1) r c = get2 (vel g2) r c ->
  get2 (h (simulation_step p g1)) r c = get2 (h (simulation_step p g2)) r c /\
  get2 (vel (simulation_step p g1)) r c = get2 (vel (simulation_step p g2)) r c.
Proof.
  intros Ha1 Ha2 EW EH Hd Hc Hu Hdn Hl Hr Hv.
  destruct (simulation_step_spec p g1 Ha1) as (_ & _ & _ & _ & Hc1).
  destruct (simulation_step_spec p g2 Ha2) as (_ & _ & _ & _ & Hc2).
  rewrite EW, EH in Hc2.
  destruct (Hc1 r c Hd) as [-> ->]. destruct (Hc2 r c Hd) as [-> ->].
  destruct (Hc Hd) as [Hch Hco]. pose proof Hd as [Hdr Hdc].
  assert (Eu : h_up g1 r c = h_up g2 r c).
  { unfold h_up. destruct (Z.gtb_spec r 0); cbn [andb]; [|done].
    destruct Hu as [-> ->]; [unfold in_domain; lia|]. by rewrite Hch. }
  assert (Ed : h_down g1 r c = h_down g2 r c).
  { unfold h_down. rewrite EH. destruct (Z.ltb_spec r (HEIGHT g1 - 1)); cbn [andb]; [|done].
    destruct Hdn as [-> ->]; [unfold in_domain; lia|]. by rewrite Hch. }
  assert (El : h_left g1 r c = h_left g2 r c).
  { unfold h_left. destruct (Z.gtb_spec c 0); cbn [andb]; [|done].
    destruct Hl as [-> ->]; [unfold in_domain; lia|]. by rewrite Hch. }
  assert (Er : h_right g1 r c = h_right g2 r c).
  { unfold h_right. rewrite EW. destruct (Z.ltb_spec c (WIDTH g1 - 1)); cbn [andb]; [|done].
    destruct Hr as [-> ->]; [unfold in_domain; lia|]. by rewrite Hch. }
  unfold cell_h, cell_vel, is_obstacle, new_h, new_vel, laplacian_h.
  by rewrite Eu, Ed, El, Er, Hch, Hco, Hv.
Qed.

Lemma step_is_local_witness :
  allocated stirred_grid = true /\ allocated raised_grid = true /\
  WIDTH raised_grid = WIDTH stirred_grid /\ HEIGHT raised_grid = HEIGHT stirred_grid /\
  in_domain (WIDTH stirred_grid) (HEIGHT stirred_grid) 1 1 /\
  agree_at stirred_grid raised_grid 1 1 /\
  agree_at stirred_grid raised_grid (1 - 1) 1 /\ agree_at stirred_grid raised_grid (1 + 1) 1 /\
  agree_at stirred_grid raised_grid 1 (1 - 1) /\ agree_at stirred_grid raised_grid 1 (1 + 1) /\
  get2 (vel stirred_grid) 1 1 = get2 (vel raised_grid) 1 1 /\
  h raised_grid <> h stirred_grid /\
  get2 (h (simulation_step tilted_start stirred_grid)) 1 1
    = get2 (h (simulation_step tilted_start raised_grid)) 1 1 /\
  get2 (vel (simulation_step tilted_start stirred_grid)) 1 1
    = get2 (vel (simulation_step tilted_start raised_grid)) 1 1.
Proof.
  assert (A1 : allocated stirred_grid = true) by (vm_compute; reflexivity).
  assert (A2 : allocated raised_grid = true) by (vm_compute; reflexivity).
  assert (E1 : WIDTH raised_grid = WIDTH stirred_grid) by (vm_compute; reflexivity).
  assert (E2 : HEIGHT raised_grid = HEIGHT stirred_grid) by (vm_compute; reflexivity).
  assert (Hd : in_domain (WIDTH stirred_grid) (HEIGHT stirred_grid) 1 1)
    by (vm_compute; repeat split; discriminate).
  assert (H0 : agree_at stirred_grid raised_grid 1 1)
    by (intros _; vm_compute; split; reflexivity).
  assert (H1 : agree_at stirred_grid raised_grid (1 - 1) 1)
    by (intros _; vm_compute; split; reflexivity).
  assert (H2 : agree_at stirred_grid raised_grid (1 + 1) 1)
    by (intros _; vm_compute; split; reflexivity).
  assert (H3 : agree_at stirred_grid raised_grid 1 (1 - 1))
    by (intros _; vm_compute; split; reflexivity).
  assert (H4 : agree_at stirred_grid raised_grid 1 (1 + 1))
    by (intros _; vm_compute; split; reflexivity).
  assert (Hv : get2 (vel stirred_grid) 1 1 = get2 (vel raised_grid) 1 1)
    by (vm_compute; reflexivity).
  assert (N : h raised_grid <> h stirred_grid) by (vm_compute; discriminate).
  exact (conj A1 (conj A2 (conj E1 (conj E2 (conj Hd (conj H0 (conj H1 (conj H2 (conj H3 (conj H4 (conj Hv (conj N (step_is_local tilted_start stirred_grid raised_grid 1 1
     A1 A2 E1 E2 Hd H0 H1 H2 H3 H4 Hv))))))))))))).
Defined.

Lemma border_row_free W H' r1 r2 c c' :
  border W H' r1 c = false -> border W H' r2 c = false ->
  border W H' r1 c' = border W H' r2 c'.
Proof.
  unfold border. rewrite !orb_false_iff.
  intros [[[-> ->] _] _] [[[-> ->] _] _]. done.
Qed.

(** A step keeps the rows of water alike when the obstacles are the
    border. *)
Lemma rows_alike_step p g :
  allocated g = true ->
  (forall r c, in_domain (WIDTH g) (HEIGHT g) r c ->
     is_obstacle g r c = border (WIDTH g) (HEIGHT g) r c) ->
  rows_alike g -> rows_alike (simulation_step p g).
Proof.
  intros Ha Hob Hrows.
  destruct (simulation_step_spec p g Ha) as (EW & EH & _ & _ & Hc).
  unfold rows_alike. rewrite EW, EH. intros r1 r2 c Hd1 Hd2 Hb1 Hb2.
  destruct (Hc r1 c Hd1) as [-> ->]. destruct (Hc r2 c Hd2) as [-> ->].
  unfold cell_h, cell_vel. rewrite (Hob r1 c Hd1), (Hob r2 c Hd2), Hb1, Hb2.
  destruct (Hrows r1 r2 c Hd1 Hd2 Hb1 Hb2) as [Hh Hv].
  pose proof Hd1 as [Hr1 Hc1]. pose proof Hd2 as [Hr2 Hc2].
  assert (Hwater : forall r c', in_domain (WIDTH g) (HEIGHT g) r c' ->
            (get2 (obstacle g) r c' =? 0) = negb (border (WIDTH g) (HEIGHT g) r c')).
  { intros r c' Hd. rewrite <- (Hob r c' Hd). unfold is_obstacle. by rewrite negb_involutive. }
  assert (Hup : forall r, in_domain (WIDTH g) (HEIGHT g) r c ->
            border (WIDTH g) (HEIGHT g) r c = false -> h_up g r c = get2 (h g) r c).
  { intros r Hd Hb. unfold h_up. destruct (Z.gtb_spec r 0); cbn [andb]; [|done].
    destruct Hd. assert (Hd' : in_domain (WIDTH g) (HEIGHT g) (r - 1) c)
      by (unfold in_domain; lia).
    rewrite (Hwater _ _ Hd').
    destruct (border (WIDTH g) (HEIGHT g) (r - 1) c) eqn:Hb'; cbn [negb]; [done|].
    apply Hrows; (done || (unfold in_domain; lia)). }
  assert (Hdown : forall r, in_domain (WIDTH g) (HEIGHT g) r c ->
            border (WIDTH g) (HEIGHT g) r c = false -> h_down g r c = get2 (h g) r c).
  { intros r Hd Hb. unfold h_down.
    destruct (Z.ltb_spec r (HEIGHT g - 1)); cbn [andb]; [|done].
    destruct Hd. assert (Hd' : in_domain (WIDTH g) (HEIGHT g) (r + 1) c)
      by (unfold in_domain; lia).
    rewrite (Hwater _ _ Hd').
    destruct (border (WIDTH g) (HEIGHT g) (r + 1) c) eqn:Hb'; cbn [negb]; [done|].
    apply Hrows; (done || (unfold in_domain; lia)). }
  assert (Hleft : h_left g r1 c = h_left g r2 c).
  { unfold h_left. destruct (Z.gtb_spec c 0); cbn [andb]; [|done].
    assert (Hd1' : in_domain (WIDTH g) (HEIGHT g) r1 (c - 1)) by (unfold in_domain; lia).
    assert (Hd2' : in_domain (WIDTH g) (HEIGHT g) r2 (c - 1)) by (unfold in_domain; lia).
    rewrite (Hwater _ _ Hd1'), (Hwater _ _ Hd2').
    rewrite (border_row_free _ _ r1 r2 c (c - 1) Hb1 Hb2).
    destruct (border (WIDTH g) (HEIGHT g) r2 (c - 1)) eqn:Hb'; cbn [negb]; [done|].
    apply Hrows; try done. by rewrite (border_row_free _ _ r1 r2 c (c - 1) Hb1 Hb2). }
  assert (Hright : h_right g r1 c = h_right g r2 c).
  { unfold h_right. destruct (Z.ltb_spec c (WIDTH g - 1)); cbn [andb]; [|done].
    assert (Hd1' : in_domain (WIDTH g) (HEIGHT g) r1 (c + 1)) by (unfold in_domain; lia).
    assert (Hd2' : in_domain (WIDTH g) (HEIGHT g) r2 (c + 1)) by (unfold in_domain; lia).
    rewrite (Hwater _ _ Hd1'), (Hwater _ _ Hd2').
    rewrite (border_row_free _ _ r1 r2 c (c + 1) Hb1 Hb2).
    destruct (border (WIDTH g) (HEIGHT g) r2 (c + 1)) eqn:Hb'; cbn [negb]; [done|].
    apply Hrows; try done. by rewrite (border_row_free _ _ r1 r2 c (c + 1) Hb1 Hb2). }
  unfold new_h, new_vel, laplacian_h.
  rewrite (Hup r1 Hd1 Hb1), (Hup r2 Hd2 Hb2), (Hdown r1 Hd1 Hb1), (Hdown r2 Hd2 Hb2).
  by rewrite Hleft, Hright, Hh, Hv.
Qed.

(** X6. Without the central disturbance the water sloshes in one dimension
    only: in every state the program reaches, the interior cells of a column
    all hold the same height and the same velocity. *)
Theorem rows_stay_alike p W H' n :
  disturbed p W H' = false ->
  rows_alike (run p n (initialize_simulation p (allocate_grids W H'))).
Proof.
  intros Hnd. induction n as [|n IH].
  - destruct (initialize_simulation_spec p W H') as (EW & EH & _ & Hc).
    simpl. unfold rows_alike. rewrite EW, EH. intros r1 r2 c Hd1 Hd2 Hb1 Hb2.
    destruct (Hc r1 c Hd1) as (_ & -> & ->). destruct (Hc r2 c Hd2) as (_ & -> & ->).
    rewrite Hnd. cbn [andb]. unfold init_h. by rewrite Hb1, Hb2.
  - rewrite run_succ.
    destruct (reached_frame p W H' n) as (EW & EH & Ha & _ & Hob).
    apply rows_alike_step; try done. by rewrite EW, EH.
Qed.

Lemma rows_stay_alike_witness :
  disturbed tilted_start 6 5 = false /\
  rows_alike (run tilted_start 4 (initialize_simulation tilted_start (allocate_grids 6 5))).
Proof.
  assert (Hnd : disturbed tilted_start 6 5 = false) by reflexivity.
  exact (conj Hnd (rows_stay_alike tilted_start 6 5 4 Hnd)).
Defined.

Lemma height_to_char_not_X x : height_to_char x <> "X"%char.
Proof.
  unfold height_to_char.
  repeat match goal with |- context [if ?b then _ else _] => destruct b end; discriminate.
Qed.

(** X11. The frame of every state the program reaches is framed: the byte of a
    border cell is ['X'], the byte of an interior cell is the glyph of its
    height and never ['X']. *)
Theorem frame_is_framed p W H' n r c :
  in_domain W H' r c ->
  let g := run p n (initialize_simulation p (allocate_grids W H')) in
  screen_buffer g !! Z.to_nat (r * (W + 1) + c)
    = Some (if border W H' r c then "X"%char else height_to_char (get2 (h g) r c)) /\
  (border W H' r c = false -> height_to_char (get2 (h g) r c) <> "X"%char).
Proof.
  intros Hd g. subst g.
  destruct (reached_frame p W H' n) as (EW & EH & _ & _ & Hob).
  split; [|intros _; apply height_to_char_not_X].
  set (g := run p n (initialize_simulation p (allocate_grids W H'))) in *.
  assert (Hd' : in_domain (WIDTH g) (HEIGHT g) r c) by (by rewrite EW, EH).
  destruct (screen_lookup g r c Hd') as (Hl & _). rewrite EW in Hl. rewrite Hl.
  f_equal. unfold glyph. fold (is_obstacle g r c). by rewrite (Hob r c Hd).
Qed.

Lemma frame_is_framed_witness :
  let g := run tilted_start 4 (initialize_simulation tilted_start (allocate_grids 6 5)) in
  in_domain 6 5 4 3 /\
  screen_buffer g !! Z.to_nat (4 * (6 + 1) + 3)
    = Some (if border 6 5 4 3 then "X"%char else height_to_char (get2 (h g) 4 3)) /\
  (border 6 5 4 3 = false -> height_to_char (get2 (h g) 4 3) <> "X"%char).
Proof.
  assert (Hd : in_domain 6 5 4 3) by (unfold in_domain; lia).
  exact (conj Hd (frame_is_framed tilted_start 6 5 4 4 3 Hd)).
Defined.

(* ===================================================================== *)
(** * Further properties: glyphs, the terminal and the command line *)
(* ===================================================================== *)

Lemma ltb_leb_trans t x y : ltb t x = true -> leb x y = true -> ltb t y = true.
Proof.
  unfold ltb, leb, SFltb, SFleb, SFcompare.
  destruct t as [[]|[]| |[] mt et], x as [[]|[]| |[] mx ex], y as [[]|[]| |[] my ey];
    try done;
    change (Pos.compare_cont Eq) with Pos.compare;
    destruct (Z.compare_spec et ex), (Z.compare_spec ex ey), (Z.compare_spec et ey);
    try done; try lia;
    destruct (Pos.compare_spec mt mx), (Pos.compare_spec mx my), (Pos.compare_spec mt my);
    try done; try lia.
Qed.

Lemma gtb_mono t x y : leb x y = true -> Z.b2z (gtb x t) <= Z.b2z (gtb y t).
Proof.
  intros Hxy. unfold gtb. destruct (SFltb t x) eqn:E; [|by destruct (SFltb t y)].
  change (ltb t x = true) in E. pose proof (ltb_leb_trans t x y E Hxy) as E'.
  change (SFltb t y = true) in E'. by rewrite E'.
Qed.

(** The rank of the glyph of a height is the number of thresholds the
    height exceeds. *)
Lemma rank_count x :
  glyph_rank (height_to_char x) =
  Z.b2z (gtb x (lit 80 100)) + Z.b2z (gtb x (lit 65 100)) + Z.b2z (gtb x (lit 50 100))
  + Z.b2z (gtb x (lit 35 100)) + Z.b2z (gtb x (lit 20 100)) + Z.b2z (gtb x (lit 5 100)).
Proof.
  assert (M1 : gtb x (lit 5 100) = false -> gtb x (lit 20 100) = false)
    by (by apply not_gtb_mono).
  assert (M2 : gtb x (lit 20 100) = false -> gtb x (lit 35 100) = false)
    by (by apply not_gtb_mono).
  assert (M3 : gtb x (lit 35 100) = false -> gtb x (lit 50 100) = false)
    by (by apply not_gtb_mono).
  assert (M4 : gtb x (lit 50 100) = false -> gtb x (lit 65 100) = false)
    by (by apply not_gtb_mono).
  assert (M5 : gtb x (lit 65 100) = false -> gtb x (lit 80 100) = false)
    by (by apply not_gtb_mono).
  unfold height_to_char.
  destruct (gtb x (lit 80 100)), (gtb x (lit 65 100)), (gtb x (lit 50 100)),
    (gtb x (lit 35 100)), (gtb x (lit 20 100)), (gtb x (lit 5 100));
    try reflexivity;
    repeat match goal with
           | M : ?a = ?a -> _ |- _ => specialize (M eq_refl)
           end; discriminate.
Qed.

(** X12. Deeper water never shows a lighter glyph: along [" .-=*#@"] the glyph
    of a height is monotone in the height. *)
Theorem deeper_water_darker_glyph x y :
  leb x y = true ->
  glyph_rank (height_to_char x) <= glyph_rank (height_to_char y).
Proof.
  intros Hxy. rewrite !rank_count.
  pose proof (gtb_mono (lit 80 100) x y Hxy). pose proof (gtb_mono (lit 65 100) x y Hxy).
  pose proof (gtb_mono (lit 50 100) x y Hxy). pose proof (gtb_mono (lit 35 100) x y Hxy).
  pose proof (gtb_mono (lit 20 100) x y Hxy). pose proof (gtb_mono (lit 5 100) x y Hxy).
  lia.
Qed.

Lemma deeper_water_darker_glyph_witness :
  leb (lit 3 10) (lit 7 10) = true /\
  glyph_rank (height_to_char (lit 3 10)) <= glyph_rank (height_to_char (lit 7 10)).
Proof.
  assert (Hxy : leb (lit 3 10) (lit 7 10) = true) by reflexivity.
  exact (conj Hxy (deeper_water_darker_glyph (lit 3 10) (lit 7 10) Hxy)).
Defined.

(** X13. [get_terminal_size] never reports an empty terminal: both dimensions
    are positive whatever [ioctl] says; a terminal of [ws_col] columns and
    more than one row is reported with one row less, and a terminal of a
    single row as [24] rows. *)
Theorem terminal_size_is_positive ws :
  0 < fst (get_terminal_size ws) /\ 0 < snd (get_terminal_size ws) /\
  (forall col row, ws = Some (col, row) -> 0 < col -> 1 < row ->
     get_terminal_size ws = (col, row - 1)) /\
  (forall col, ws = Some (col, 1) -> 0 < col -> get_terminal_size ws = (col, 24)).
Proof.
  unfold get_terminal_size. repeat split.
  - destruct ws as [[col row]|]; [|done].
    destruct ((col =? 0) || (row =? 0)); [done|].
    destruct (Z.leb_spec col 0), (Z.leb_spec (row - 1) 0); simpl; lia.
  - destruct ws as [[col row]|]; [|done].
    destruct ((col =? 0) || (row =? 0)); [done|].
    destruct (Z.leb_spec col 0), (Z.leb_spec (row - 1) 0); simpl; lia.
  - intros col row -> Hc Hr.
    replace ((col =? 0) || (row =? 0)) with false by lia.
    replace (col <=? 0) with false by lia. replace (row - 1 <=? 0) with false by lia. done.
  - intros col -> Hc. replace ((col =? 0) || (1 =? 0)) with false by lia.
    replace (col <=? 0) with false by lia. done.
Qed.

Lemma usable_size_min W H' :
  10 <= fst (usable_size W H') /\ 5 <= snd (usable_size W H').
Proof.
  rewrite usable_size_spec. simpl.
  destruct (Z.ltb_spec W 10), (Z.ltb_spec H' 5); lia.
Qed.

Section CommandLineMore.
Context `{Libc}.

(** X14. The grid [main] hands to the loop: whatever the terminal reports, the
    domain is at least [10] by [5] (so it has an interior), the arrays are
    allocated to it, and the parameters passed the validation. *)
Theorem main_starts_on_a_usable_domain argv ws p g out :
  main argv ws = Simulating p g out ->
  10 <= WIDTH g /\ 5 <= HEIGHT g /\ allocated g = true /\ validate p = None /\
  g = initialize_simulation p (allocate_grids (WIDTH g) (HEIGHT g)).
Proof.
  unfold main. destruct (parse_args (tail argv) default_params) as [p0|]; [|done].
  destruct (validate p0) eqn:Hv; [done|].
  destruct (get_terminal_size ws) as [W0 H0].
  pose proof (usable_size_min W0 H0) as [HW HH].
  destruct (usable_size W0 H0) as [W H']. simpl in HW, HH.
  intros [= <- <- _].
  destruct (initialize_simulation_spec p0 W H') as (EW & EH & Ha & _).
  rewrite EW, EH. done.
Qed.

Lemma parse_args_pairs args p :
  (exists p', parse_args args p = Parsed p') <->
  Nat.even (length args) = true /\
  Forall (fun av => takes_value (fst av) = true) (option_pairs args).
Proof.
  remember (length args) as n eqn:Hn.
  revert args p Hn. induction n as [n IH] using lt_wf_ind.
  intros [|a [|v rest]] p Hn.
  - simpl in *. subst n. split; [by intros _ | by eexists].
  - subst n. split; [|by intros [? _]].
    intros [p' Hp]. simpl in Hp.
    repeat (destruct (String.eqb a _); [done|]). by destruct (_ || _).
  - assert (Hrec : forall q, (exists p', parse_args rest q = Parsed p') <->
        Nat.even (length rest) = true /\
        Forall (fun av => takes_value (fst av) = true) (option_pairs rest)).
    { intros q. apply (IH (length rest)); [subst n; simpl; lia | done]. }
    change (option_pairs (a :: v :: rest)) with ((a, v) :: option_pairs rest).
    rewrite Forall_cons. subst n. cbn [length Nat.even fst].
    unfold takes_value. cbn [parse_args].
    repeat (destruct (String.eqb a _);
            [ cbn [orb]; rewrite Hrec; rewrite ?orb_true_r; tauto |]).
    cbn [orb]. split; [|by intros [_ [? _]]].
    intros [p' Hp]. by destruct (_ || _).
Qed.

(** X15. The command lines [main] accepts are the sequences of options that take
    a value, each followed by one argument, and no others. *)
Theorem accepted_command_lines args p :
  (exists p', parse_args args p = Parsed p') <->
  Nat.even (length args) = true /\
  Forall (fun av => takes_value (fst av) = true) (option_pairs args).
Proof. apply parse_args_pairs. Qed.

(** X16. What an accepted command line sets: each parameter is the conversion of
    the value given at the last occurrence of its option, and keeps what it
    was when its option does not occur; the order of different options does
    not matter. *)
Theorem parsed_parameters args p p' :
  parse_args args p = Parsed p' ->
  G_DT p' = given atof "--dt" args (G_DT p) /\
  G_WAVE_SPEED_SQ p' = given atof "--speed_sq" args (G_WAVE_SPEED_SQ p) /\
  G_DAMPING p' = given atof "--damping" args (G_DAMPING p) /\
  G_INITIAL_WATER_LEVEL p' = given atof "--level" args (G_INITIAL_WATER_LEVEL p) /\
  G_INITIAL_TILT p' = given atof "--tilt" args (G_INITIAL_TILT p) /\
  G_SLEEP_MS p' = given atoi "--sleep" args (G_SLEEP_MS p).
Proof.
  remember (length args) as n eqn:Hn.
  revert args p Hn. induction n as [n IH] using lt_wf_ind.
  intros [|a [|v rest]] p Hn.
  - simpl. by intros [= <-].
  - simpl. repeat (destruct (String.eqb a _); [done|]). by destruct (_ || _).
  - assert (Hrec : forall q, parse_args rest q = Parsed p' ->
        G_DT p' = given atof "--dt" rest (G_DT q) /\
        G_WAVE_SPEED_SQ p' = given atof "--speed_sq" rest (G_WAVE_SPEED_SQ q) /\
        G_DAMPING p' = given atof "--damping" rest (G_DAMPING q) /\
        G_INITIAL_WATER_LEVEL p' = given atof "--level" rest (G_INITIAL_WATER_LEVEL q) /\
        G_INITIAL_TILT p' = given atof "--tilt" rest (G_INITIAL_TILT q) /\
        G_SLEEP_MS p' = given atoi "--sleep" rest (G_SLEEP_MS q)).
    { intros q. apply (IH (length rest)); [subst n; simpl; lia | done]. }
    unfold given in *.
    change (option_pairs (a :: v :: rest)) with ((a, v) :: option_pairs rest).
    cbn [parse_args last_value].
    destruct (String.eqb_spec a "--dt") as [->|_];
      [intros Hp; destruct (Hrec _ Hp) as (-> & -> & -> & -> & -> & ->);
       repeat match goal with |- _ /\ _ => split end;
       match goal with |- context [last_value ?o ?l] => destruct (last_value o l) end;
       reflexivity|].
    destruct (String.eqb_spec a "--speed_sq") as [->|_];
      [intros Hp; destruct (Hrec _ Hp) as (-> & -> & -> & -> & -> & ->);
       repeat match goal with |- _ /\ _ => split end;
       match goal with |- context [last_value ?o ?l] => destruct (last_value o l) end;
       reflexivity|].
    destruct (String.eqb_spec a "--damping") as [->|_];
      [intros Hp; destruct (Hrec _ Hp) as (-> & -> & -> & -> & -> & ->);
       repeat match goal with |- _ /\ _ => split end;
       match goal with |- context [last_value ?o ?l] => destruct (last_value o l) end;
       reflexivity|].
    destruct (String.eqb_spec a "--level") as [->|_];
      [intros Hp; destruct (Hrec _ Hp) as (-> & -> & -> & -> & -> & ->);
       repeat match goal with |- _ /\ _ => split end;
       match goal with |- context [last_value ?o ?l] => destruct (last_value o l) end;
       reflexivity|].
    destruct (String.eqb_spec a "--tilt") as [->|_];
      [intros Hp; destruct (Hrec _ Hp) as (-> & -> & -> & -> & -> & ->);
       repeat match goal with |- _ /\ _ => split end;
       match goal with |- context [last_value ?o ?l] => destruct (last_value o l) end;
       reflexivity|].
    destruct (String.eqb_spec a "--sleep") as [->|_];
      [intros Hp; destruct (Hrec _ Hp) as (-> & -> & -> & -> & -> & ->);
       repeat match goal with |- _ /\ _ => split end;
       match goal with |- context [last_value ?o ?l] => destruct (last_value o l) end;
       reflexivity|].
    by destruct (_ || _).
Qed.

End CommandLineMore.

Lemma main_starts_on_a_usable_domain_witness :
  let g := initialize_simulation default_params (allocate_grids 20 10) in
  @main reads_zero ["cfd"]%string (Some (8, 3))
    = Simulating default_params g [TerminalTooSmall; Banner 20 10 default_params] /\
  10 <= WIDTH g /\ 5 <= HEIGHT g /\ allocated g = true /\ validate default_params = None /\
  g = initialize_simulation default_params (allocate_grids (WIDTH g) (HEIGHT g)).
Proof.
  assert (Hm : @main reads_zero ["cfd"]%string (Some (8, 3))
    = Simulating default_params (initialize_simulation default_params (allocate_grids 20 10))
        [TerminalTooSmall; Banner 20 10 default_params]) by reflexivity.
  exact (conj Hm (@main_starts_on_a_usable_domain reads_zero _ _ _ _ _ Hm)).
Defined.

Lemma parsed_parameters_witness :
  let args := ["--sleep"; "9"; "--dt"; "1"; "--sleep"; "7"]%string in
  let p' := set_sleep (set_dt (set_sleep default_params 0) zero) 0 in
  @parse_args reads_zero args default_params = Parsed p' /\
  G_DT p' = given (@atof reads_zero) "--dt" args (G_DT default_params) /\
  G_WAVE_SPEED_SQ p'
    = given (@atof reads_zero) "--speed_sq" args (G_WAVE_SPEED_SQ default_params) /\
  G_DAMPING p' = given (@atof reads_zero) "--damping" args (G_DAMPING default_params) /\
  G_INITIAL_WATER_LEVEL p'
    = given (@atof reads_zero) "--level" args (G_INITIAL_WATER_LEVEL default_params) /\
  G_INITIAL_TILT p' = given (@atof reads_zero) "--tilt" args (G_INITIAL_TILT default_params) /\
  G_SLEEP_MS p' = given (@atoi reads_zero) "--sleep" args (G_SLEEP_MS default_params).
Proof.
  assert (Hp : @parse_args reads_zero ["--sleep"; "9"; "--dt"; "1"; "--sleep"; "7"]%string
                 default_params
               = Parsed (set_sleep (set_dt (set_sleep default_params 0) zero) 0))
    by reflexivity.
  exact (conj Hp (@parsed_parameters reads_zero _ _ _ Hp)).
Defined.

Section ExitsAndMessages.
Context `{Libc}.

Lemma parse_args_return args p code out :
  parse_args args p = Return code out ->
  (code = 0 /\ out = [Usage] /\ Exists (fun a => is_help a = true) args) \/
  (code = 1 /\ In Usage out).
Proof.
  remember (length args) as n eqn:Hn.
  revert args p Hn. induction n as [n IH] using lt_wf_ind.
  intros [|a rest] p Hn; [done|].
  assert (Hval : forall set : Params -> string -> Params,
            match rest with
            | v :: rest' => parse_args rest' (set p v)
            | [] => Return 1 [Usage]
            end = Return code out ->
            (code = 0 /\ out = [Usage] /\ Exists (fun a => is_help a = true) (a :: rest)) \/
            (code = 1 /\ In Usage out)).
  { intros set. destruct rest as [|v rest'].
    - intros [= <- <-]. right. split; [done|by left].
    - intros Hp. destruct (IH (length rest') ltac:(subst n; simpl; lia) rest' _ eq_refl Hp)
        as [(-> & -> & Hex)|?]; [left|by right].
      repeat split; try done. by do 2 apply Exists_cons_tl. }
  cbn [parse_args].
  destruct (String.eqb a "--dt"); [apply (Hval (fun p v => set_dt p (atof v)))|].
  destruct (String.eqb a "--speed_sq"); [apply (Hval (fun p v => set_speed_sq p (atof v)))|].
  destruct (String.eqb a "--damping"); [apply (Hval (fun p v => set_damping p (atof v)))|].
  destruct (String.eqb a "--level"); [apply (Hval (fun p v => set_level p (atof v)))|].
  destruct (String.eqb a "--tilt"); [apply (Hval (fun p v => set_tilt p (atof v)))|].
  destruct (String.eqb a "--sleep"); [apply (Hval (fun p v => set_sleep p (atoi v)))|].
  destruct (String.eqb a "-h" || String.eqb a "--help") eqn:Hh.
  - intros [= <- <-]. left. repeat split; try done. by apply Exists_cons_hd.
  - intros [= <- <-]. right. split; [done|]. right. by left.
Qed.

(** X17. When [main] returns, the status is [0] or [1]; it is [0] only when an
    argument is a help flag, and then the usage is all that is printed; a
    status of [1] always comes with the usage or with one diagnostic. *)
Theorem main_exit_status argv ws code out :
  main argv ws = Exit code out ->
  (code = 0 /\ out = [Usage] /\ Exists (fun a => is_help a = true) (tail argv)) \/
  (code = 1 /\ (In Usage out \/ exists msg, out = [Error msg])).
Proof.
  unfold main.
  destruct (parse_args (tail argv) default_params) as [p|c o] eqn:Hp.
  - destruct (validate p) as [msg|].
    + intros [= <- <-]. right. split; [done|]. right. by exists msg.
    + destruct (get_terminal_size ws) as [W0 H0]. by destruct (usable_size W0 H0).
  - intros [= <- <-].
    destruct (parse_args_return _ _ _ _ Hp) as [?|[? ?]]; [by left|right; auto].
Qed.

(** X18. What a start prints: the stability warning and the instability banner
    exactly when the metric [waveSpeedSq * dt * dt] exceeds [0.5], the
    notice of a small terminal exactly when the detected size is below [10]
    columns or [5] rows, the banner with the dimensions of the grid, and
    neither the usage nor a diagnostic. *)
Theorem start_up_messages argv ws p g out :
  main argv ws = Simulating p g out ->
  (In (StabilityWarning (stability_metric p)) out <-> unstable p = true) /\
  (In InstabilityBanner out <-> unstable p = true) /\
  (In TerminalTooSmall out <->
     fst (get_terminal_size ws) < 10 \/ snd (get_terminal_size ws) < 5) /\
  In (Banner (WIDTH g) (HEIGHT g) p) out /\
  ~ In Usage out /\ (forall msg, ~ In (Error msg) out).
Proof.
  unfold main. destruct (parse_args (tail argv) default_params) as [p0|]; [|done].
  destruct (validate p0) eqn:Hv; [done|].
  destruct (get_terminal_size ws) as [W0 H0]. cbn [fst snd].
  destruct (usable_size W0 H0) as [W H'] eqn:Hu.
  intros [= <- <- <-].
  destruct (initialize_simulation_spec p0 W H') as (-> & -> & _).
  assert (Hsmall : (W0 <? 10) || (H0 <? 5) = true <-> W0 < 10 \/ H0 < 5).
  { rewrite orb_true_iff, !Z.ltb_lt. tauto. }
  destruct (unstable p0), ((W0 <? 10) || (H0 <? 5)); simpl;
    repeat split; try tauto; try intuition discriminate;
    try (intros; intuition discriminate); intuition (congruence || discriminate || auto).
Qed.

End ExitsAndMessages.

(** X19. A NaN never fails the validation: parameters that pass still pass when
    any of the five floating-point parameters is replaced by a NaN. *)
Theorem nan_passes_validation p :
  validate p = None ->
  validate (set_dt p S754_nan) = None /\
  validate (set_speed_sq p S754_nan) = None /\
  validate (set_damping p S754_nan) = None /\
  validate (set_level p S754_nan) = None /\
  validate (set_tilt p S754_nan) = None.
Proof.
  unfold validate. cbn [G_DT G_WAVE_SPEED_SQ G_DAMPING G_INITIAL_WATER_LEVEL G_INITIAL_TILT
                        G_SLEEP_MS set_dt set_speed_sq set_damping set_level set_tilt].
  change (leb S754_nan (of_int 0)) with false.
  change (ltb S754_nan zero) with false. change (gtb S754_nan one) with false.
  destruct (leb (G_DT p) (of_int 0)); [done|].
  destruct (leb (G_WAVE_SPEED_SQ p) (of_int 0)); [done|].
  destruct (ltb (G_DAMPING p) zero); [done|].
  destruct (ltb (G_INITIAL_WATER_LEVEL p) zero || gtb (G_INITIAL_WATER_LEVEL p) one); [done|].
  destruct (ltb (G_INITIAL_TILT p) zero || gtb (G_INITIAL_TILT p) one); [done|].
  destruct (G_SLEEP_MS p <? 0); [done|]. cbn [orb]. done.
Qed.

Lemma nan_passes_validation_witness :
  validate default_params = None /\
  validate (set_dt default_params S754_nan) = None /\
  validate (set_speed_sq default_params S754_nan) = None /\
  validate (set_damping default_params S754_nan) = None /\
  validate (set_level default_params S754_nan) = None /\
  validate (set_tilt default_params S754_nan) = None.
Proof.
  assert (Hv : validate default_params = None) by reflexivity.
  exact (conj Hv (nan_passes_validation default_params Hv)).
Defined.

Lemma main_exit_status_witness :
  @main reads_zero ["cfd"; "--dt"; "2"; "-h"; "--bogus"]%string None = Exit 0 [Usage] /\
  ((0 = 0 /\ [Usage] = [Usage] /\
    Exists (fun a => is_help a = true) (tail ["cfd"; "--dt"; "2"; "-h"; "--bogus"]%string)) \/
   (0 = 1 /\ (In Usage [Usage] \/ exists msg, [Usage] = [Error msg]))).
Proof.
  assert (Hm : @main reads_zero ["cfd"; "--dt"; "2"; "-h"; "--bogus"]%string None
               = Exit 0 [Usage]) by reflexivity.
  exact (conj Hm (@main_exit_status reads_zero _ _ _ _ Hm)).
Defined.

Lemma start_up_messages_witness :
  let p := default_params in
  let g := initialize_simulation p (allocate_grids 20 10) in
  let out := [TerminalTooSmall; Banner 20 10 p] in
  @main reads_zero ["cfd"]%string (Some (8, 3)) = Simulating p g out /\
  (In (StabilityWarning (stability_metric p)) out <-> unstable p = true) /\
  (In InstabilityBanner out <-> unstable p = true) /\
  (In TerminalTooSmall out <->
     fst (get_terminal_size (Some (8, 3))) < 10 \/ snd (get_terminal_size (Some (8, 3))) < 5) /\
  In (Banner (WIDTH g) (HEIGHT g) p) out /\
  ~ In Usage out /\ (forall msg, ~ In (Error msg) out).
Proof.
  assert (Hm : @main reads_zero ["cfd"]%string (Some (8, 3))
    = Simulating default_params (initialize_simulation default_params (allocate_grids 20 10))
        [TerminalTooSmall; Banner 20 10 default_params]) by reflexivity.
  exact (conj Hm (@start_up_messages reads_zero _ _ _ _ _ Hm)).
Defined.
